(** * lightandstorm: the antenna / LED control logic of the ESP32 storm sensor

    A shallow embedding of the control code of the three program variants

      - [Template] : src/renesans_template.py  (class StormSensorSystem)
      - [Latest]   : src/renesans_latest.py    (class EnhancedStormSensor, clouds pin)
      - [Main]     : src/main.py               (class EnhancedStormSensor, DHT11)

    Every method that touches a pin is a computation in a state-and-exception
    monad over the board ([Board.Hardware]) and the attributes of the object
    ([self]).  A Python exception leaves the mutations done before it in
    place, so a raised outcome still carries the state reached.  Any
    [Pin.value] call, read or write, may raise, and so may the DHT11; the
    clock [time.ticks_ms] does not.  Console output ([print]) and pauses
    ([time.sleep]) have no effect on the pins or on the object and are left
    out.  Pin levels, DHT11 readings and thresholds are integers, as the
    drivers and [__init__] give them. *)

From Stdlib Require Import ZArith List String Bool Lia DecimalString.
Import ListNotations.
Local Open Scope Z_scope.

(** ** Python values used by the code *)

(** [bool(n)] for an integer pin level. *)
Definition truthy (n : Z) : bool := negb (n =? 0).

(** [a != b] on booleans. *)
Definition bool_ne (a b : bool) : bool := negb (Bool.eqb a b).

(** [f"{n}"] for an integer. *)
Definition fmt_int (n : Z) : string := NilZero.string_of_int (Z.to_int n).

(** [sub in s] on strings. *)
Fixpoint py_in (sub s : string) : bool :=
  String.prefix sub s
  || match s with
     | EmptyString => false
     | String _ s' => py_in sub s'
     end.

(** [s.split(sep)] for a non-empty separator: [cur] is the field being
    read, [skip] the characters of a separator still to pass over. *)
Fixpoint py_split_go (sep : string) (skip : nat) (cur s : string) {struct s}
  : list string :=
  match s with
  | EmptyString => [cur]
  | String a s' =>
      match skip with
      | S k => py_split_go sep k cur s'
      | O =>
          if String.prefix sep s
          then cur :: py_split_go sep (String.length sep - 1) EmptyString s'
          else py_split_go sep 0 (cur ++ String a EmptyString) s'
      end
  end.

Definition py_split (sep s : string) : list string :=
  py_split_go sep 0 EmptyString s.

(** Whether character [a] occurs in [s]. *)
Fixpoint has_char (a : Ascii.ascii) (s : string) : bool :=
  match s with
  | EmptyString => false
  | String b s' => Ascii.eqb a b || has_char a s'
  end.

(** The two characters of a line end. *)
Definition crlf : string :=
  String (Ascii.ascii_of_nat 13) (String (Ascii.ascii_of_nat 10) EmptyString).

(** ** State and exceptions *)

Inductive outcome (A : Type) : Type :=
| Ok (a : A)
| Raised (e : string).
Arguments Ok {A} a.
Arguments Raised {A} e.

Definition M (St A : Type) : Type := St -> outcome A * St.

Definition ret {St A} (a : A) : M St A := fun s => (Ok a, s).

Definition raise {St A} (e : string) : M St A := fun s => (Raised e, s).

Definition bind {St A B} (c : M St A) (k : A -> M St B) : M St B :=
  fun s =>
    match c s with
    | (Ok a, s') => k a s'
    | (Raised e, s') => (Raised e, s')
    end.

(** [try: body  except Exception as e: handler(e)] *)
Definition try_except {St A} (body : M St A) (handler : string -> M St A) : M St A :=
  fun s =>
    match body s with
    | (Ok a, s') => (Ok a, s')
    | (Raised e, s') => handler e s'
    end.

(** [for x in xs: body(x)] *)
Fixpoint for_each {St A} (xs : list A) (body : A -> M St unit) : M St unit :=
  match xs with
  | [] => ret tt
  | x :: xs' => bind (body x) (fun _ => for_each xs' body)
  end.

(** [for i in range(n): body] *)
Fixpoint repeat_times {St} (n : nat) (body : M St unit) : M St unit :=
  match n with
  | O => ret tt
  | S k => bind body (fun _ => repeat_times k body)
  end.

(** A computation keeps an invariant of the state, whatever its outcome. *)
Definition keeps {St A} (I : St -> Prop) (c : M St A) : Prop :=
  forall s, I s -> I (snd (c s)).

Declare Scope py_scope.
Delimit Scope py_scope with py.
Notation "x <- c ;; k" := (bind c (fun x => k))
  (at level 61, c at next level, right associativity) : py_scope.
Notation "c ;;; k" := (bind c (fun _ => k))
  (at level 61, right associativity) : py_scope.
Local Open Scope py_scope.

(** ** The board: GPIO pins, the DHT11 and the millisecond clock *)

Module Board.

Definition gpio := Z.

(** What [measure(); temperature(); humidity()] gives on the DHT11. *)
Inductive DhtMeasure :=
| MeasureRaises (e : string)
| Measured (t h : option Z).

Record Hardware := mkHardware {
  level : gpio -> Z;               (* logic level on each GPIO *)
  fault : gpio -> option string;   (* [Some e]: [Pin.value] raises e on it *)
  dht : DhtMeasure;
  ticks : Z;                       (* time.ticks_ms() *)
  writes : list (gpio * Z)         (* every [pin.value(v)] done, oldest first *)
}.

Definition drive (p : gpio) (v : Z) (h : Hardware) : Hardware :=
  {| level := fun q => if q =? p then v else level h q;
     fault := fault h;
     dht := dht h;
     ticks := ticks h;
     writes := writes h ++ [(p, v)] |}.

(** The writes done on one pin, oldest first. *)
Definition writes_to (p : gpio) (h : Hardware) : list (gpio * Z) :=
  filter (fun w => fst w =? p) (writes h).

Record World (Self : Type) := mkWorld { self : Self; hw : Hardware }.
Arguments mkWorld {Self} self hw.
Arguments self {Self} w.
Arguments hw {Self} w.

Section Pins.
Context {Self : Type}.

(** [pin.value()] *)
Definition pin_get (p : gpio) : M (World Self) Z :=
  fun w =>
    match fault (hw w) p with
    | Some e => (Raised e, w)
    | None => (Ok (level (hw w) p), w)
    end.

(** [pin.value(v)] *)
Definition pin_set (p : gpio) (v : Z) : M (World Self) unit :=
  fun w =>
    match fault (hw w) p with
    | Some e => (Raised e, w)
    | None => (Ok tt, mkWorld (self w) (drive p v (hw w)))
    end.

(** [time.ticks_ms()] *)
Definition ticks_ms : M (World Self) Z :=
  fun w => (Ok (ticks (hw w)), w).

(** [measure()], then [temperature()] and [humidity()]. *)
Definition dht_measure : M (World Self) (option Z * option Z) :=
  fun w =>
    match dht (hw w) with
    | MeasureRaises e => (Raised e, w)
    | Measured t h => (Ok (t, h), w)
    end.

Definition get_self : M (World Self) Self :=
  fun w => (Ok (self w), w).

Definition set_self (s : Self) : M (World Self) unit :=
  fun w => (Ok tt, mkWorld s (hw w)).
End Pins.

(** No pin of the list raises. *)
Definition pins_ok (ps : list gpio) (h : Hardware) : Prop :=
  forall p, In p ps -> fault h p = None.

(** A board on the bench: the listed levels (0 elsewhere), the listed pins
    broken, nothing written yet. *)
Fixpoint lookup_level (ls : list (gpio * Z)) (p : gpio) : Z :=
  match ls with
  | [] => 0
  | (q, v) :: ls' => if p =? q then v else lookup_level ls' p
  end.

Definition bench (ls : list (gpio * Z)) (broken : list gpio)
           (d : DhtMeasure) (t : Z) : Hardware :=
  {| level := lookup_level ls;
     fault := fun p => if existsb (Z.eqb p) broken
                       then Some "OSError"%string else None;
     dht := d;
     ticks := t;
     writes := [] |}.

(** What a write on another pin leaves as it was: the attributes of the
    object, the level of pin [p] and the writes done on it. *)
Definition pin_frame {Self} (me : Self) (p : gpio) (v : Z)
           (l : list (gpio * Z)) (w : World Self) : Prop :=
  self w = me /\ level (hw w) p = v /\ writes_to p (hw w) = l.

End Board.
Import Board.

(** ** renesans_template.py *)

Module Template.

Definition PIR_PIN : gpio := 4.
Definition STORM_PIN : gpio := 5.
Definition ANTENNA_PIN : gpio := 2.
Definition LED_PIN : gpio := 23.

Record Sensors := mkSensors {
  presence : bool;
  storm : bool;
  antenna_connected : bool;
  timestamp : Z
}.

Abbreviation System := (World unit).

Definition read_sensors_try : M System Sensors :=
  presence <- pin_get PIR_PIN ;;
  storm <- pin_get STORM_PIN ;;
  antenna_connected <- pin_get ANTENNA_PIN ;;
  t <- ticks_ms ;;
  ret (mkSensors (truthy presence) (truthy storm) (truthy antenna_connected) t).

Definition read_sensors : M System Sensors :=
  try_except read_sensors_try
    (fun _ => t <- ticks_ms ;; ret (mkSensors false false false t)).

Definition update_logic : M System Sensors :=
  try_except
    (sensors <- read_sensors ;;
     let should_connect := presence sensors && negb (storm sensors) in
     (if bool_ne should_connect (antenna_connected sensors)
      then pin_set ANTENNA_PIN (if should_connect then 1 else 0)
      else ret tt) ;;;
     ret sensors)
    (fun _ => read_sensors).

Definition control_antenna (connect : bool) : M System unit :=
  try_except (pin_set ANTENNA_PIN (if connect then 1 else 0))
    (fun _ => ret tt).

(** The pins the control code reads or drives. *)
Definition pins : list gpio := [PIR_PIN; STORM_PIN; ANTENNA_PIN].

End Template.

(** ** renesans_latest.py *)

Module Latest.

Definition PIR_PIN : gpio := 4.
Definition STORM_PIN : gpio := 5.
Definition CLOUDS_PIN : gpio := 18.
Definition ANTENNA_PIN : gpio := 2.
Definition STATUS_LED_PIN : gpio := 23.
Definition STORM_LED_PIN : gpio := 19.
Definition CLOUDS_LED_PIN : gpio := 21.

(** The dict of [read_sensors]; [control_reason] is the key that
    [update_logic] adds. *)
Record Sensors := mkSensors {
  presence : bool;
  storm : bool;
  clouds : bool;
  antenna_connected : bool;
  timestamp : Z;
  control_reason : option string
}.

Definition set_control_reason (r : string) (s : Sensors) : Sensors :=
  mkSensors (presence s) (storm s) (clouds s) (antenna_connected s)
            (timestamp s) (Some r).

(** The object keeps no attribute that a method changes. *)
Abbreviation System := (World unit).

Definition read_sensors_try : M System Sensors :=
  presence <- pin_get PIR_PIN ;;
  storm <- pin_get STORM_PIN ;;
  clouds <- pin_get CLOUDS_PIN ;;
  antenna_connected <- pin_get ANTENNA_PIN ;;
  t <- ticks_ms ;;
  ret (mkSensors (truthy presence) (truthy storm) (truthy clouds)
                 (truthy antenna_connected) t None).

Definition read_sensors : M System Sensors :=
  try_except read_sensors_try
    (fun _ => t <- ticks_ms ;; ret (mkSensors false false false false t None)).

(** The [if not presence / elif storm / elif presence and not storm / else]
    chain: the target and its reason. *)
Definition antenna_rule (presence storm clouds : bool) : bool * string :=
  if negb presence then (false, "No person detected"%string)
  else if storm then (false, "Storm detected - safety first!"%string)
  else if presence && negb storm then
    (true, if clouds then "Person present, cloudy weather (antenna ON)"%string
           else "Person present, clear weather (antenna ON)"%string)
  else (false, "Unknown condition"%string).

Definition update_logic : M System Sensors :=
  try_except
    (sensors <- read_sensors ;;
     let presence := presence sensors in
     let storm := storm sensors in
     let clouds := clouds sensors in
     pin_set STORM_LED_PIN (if storm then 1 else 0) ;;;
     pin_set CLOUDS_LED_PIN (if clouds then 1 else 0) ;;;
     let '(should_connect, reason) := antenna_rule presence storm clouds in
     let current_state := antenna_connected sensors in
     (if bool_ne should_connect current_state
      then pin_set ANTENNA_PIN (if should_connect then 1 else 0)
      else ret tt) ;;;
     ret (set_control_reason reason sensors))
    (fun _ => read_sensors).

Definition control_antenna (connect manual : bool) : M System unit :=
  try_except (pin_set ANTENNA_PIN (if connect then 1 else 0))
    (fun _ => ret tt).

Definition control_led (led_type : string) (state : bool) : M System unit :=
  try_except
    (if String.eqb led_type "storm" then
       pin_set STORM_LED_PIN (if state then 1 else 0)
     else if String.eqb led_type "clouds" then
       pin_set CLOUDS_LED_PIN (if state then 1 else 0)
     else if String.eqb led_type "status" then
       pin_set STATUS_LED_PIN (if state then 1 else 0)
     else ret tt)
    (fun _ => ret tt).

(** The output pins the control code drives. *)
Definition outputs : list gpio := [ANTENNA_PIN; STORM_LED_PIN; CLOUDS_LED_PIN].
Definition inputs : list gpio := [PIR_PIN; STORM_PIN; CLOUDS_PIN].

(** [test_all_outputs]: each output on, then off; no [try]. *)
Definition test_all_outputs : M System unit :=
  for_each [("Status LED"%string, STATUS_LED_PIN);
            ("Storm LED"%string, STORM_LED_PIN);
            ("Clouds LED"%string, CLOUDS_LED_PIN);
            ("Antenna Relay"%string, ANTENNA_PIN)]
    (fun '(name, pin) => pin_set pin 1 ;;; pin_set pin 0).

End Latest.

(** ** main.py *)

Module Main.

Definition PIR_PIN : gpio := 4.
Definition STORM_PIN : gpio := 5.
Definition DHT11_PIN : gpio := 18.
Definition ANTENNA_PIN : gpio := 19.
Definition LED1_PIN : gpio := 0.
Definition LED2_PIN : gpio := 15.
Definition LED3_PIN : gpio := 2.

(** [self.manual_override]: a dict with the four keys below, from
    [__init__] on. *)
Record Overrides := mkOverrides {
  storm_led : bool;
  clouds_led : bool;
  on_air_led : bool;
  antenna : bool
}.

(** The attributes of the object that the methods read or assign. *)
Record Controller := mkController {
  dht11_sensor : bool;        (* [false]: [self.dht11_sensor] is None *)
  humidity_threshold : Z;
  temp_min : Z;
  temp_max : Z;
  manual_override : Overrides
}.

Abbreviation System := (World Controller).

Definition no_override : Overrides := mkOverrides false false false false.

(** The attributes as [__init__] leaves them. *)
Definition init_self (dht_ok : bool) : Controller :=
  mkController dht_ok 80 5 35 no_override.

Definition set_manual_override (o : Overrides) : M System unit :=
  me <- get_self ;;
  set_self (mkController (dht11_sensor me) (humidity_threshold me)
                         (temp_min me) (temp_max me) o).

(** The dict of [read_sensors]; the last three keys are the ones
    [update_logic] adds. *)
Record Sensors := mkSensors {
  presence : bool;
  storm : bool;
  clouds : bool;
  antenna_connected : bool;
  temperature : option Z;
  humidity : option Z;
  weather_status : string;
  dht_status : string;
  timestamp : Z;
  control_reason : option string;
  on_air : option bool;
  manual_overrides : option Overrides
}.

Definition set_weather_thresholds (humidity_max tmin tmax : Z) : M System unit :=
  me <- get_self ;;
  set_self (mkController (dht11_sensor me) humidity_max tmin tmax
                         (manual_override me)).

Definition read_dht11 : M System (option Z * option Z * string) :=
  me <- get_self ;;
  if negb (dht11_sensor me) then ret (None, None, "DHT11 not initialized"%string)
  else
    try_except
      (r <- dht_measure ;;
       match r with
       | (Some temperature, Some humidity) =>
           if ((-40 <=? temperature) && (temperature <=? 80))
              && ((0 <=? humidity) && (humidity <=? 100))
           then ret (Some temperature, Some humidity, "OK"%string)
           else ret (None, None, "Invalid readings"%string)
       | _ => ret (None, None, "Read failed"%string)
       end)
      (fun e => ret (None, None, ("DHT11 error: " ++ e)%string)).

(** The weather rule inside [read_sensors]: [clouds] and [weather_status]. *)
Definition weather (me : Controller) (temperature humidity : option Z)
           (dht_status : string) : bool * string :=
  match temperature, humidity with
  | Some t, Some h =>
      if h >? humidity_threshold me then
        (true, ("High humidity (" ++ fmt_int h ++ "%) - Cloudy")%string)
      else if t <? temp_min me then
        (true, ("Cold weather (" ++ fmt_int t ++ "°C) - Poor conditions")%string)
      else if t >? temp_max me then
        (true, ("Hot weather (" ++ fmt_int t ++ "°C) - Extreme heat")%string)
      else
        (false, ("Good weather (" ++ fmt_int t ++ "°C, " ++ fmt_int h ++ "%)")%string)
  | _, _ => (false, ("DHT11 error: " ++ dht_status)%string)
  end.

Definition read_sensors_try : M System Sensors :=
  presence <- pin_get PIR_PIN ;;
  storm <- pin_get STORM_PIN ;;
  antenna_connected <- pin_get ANTENNA_PIN ;;
  r <- read_dht11 ;;
  let '(temperature, humidity, dht_status) := r in
  me <- get_self ;;
  let '(clouds, weather_status) := weather me temperature humidity dht_status in
  t <- ticks_ms ;;
  ret (mkSensors (truthy presence) (truthy storm) clouds (truthy antenna_connected)
                 temperature humidity weather_status dht_status t
                 None None None).

(** The dict of the [except] branch of [read_sensors]. *)
Definition fail_safe (t : Z) : Sensors :=
  mkSensors false false false false None None
            "Sensor error"%string "Error"%string t None None None.

Definition read_sensors : M System Sensors :=
  try_except read_sensors_try (fun _ => t <- ticks_ms ;; ret (fail_safe t)).

(** The antenna chain of [update_logic]: the target and its reason. *)
Definition antenna_rule (presence storm clouds : bool) (weather_status : string)
  : bool * string :=
  if negb presence then (false, "No person detected"%string)
  else if storm then (false, "Storm detected - safety first!"%string)
  else if presence && negb storm then
    (true, ("Person present, " ++ weather_status ++ " (antenna ON)")%string)
  else (false, "Unknown condition"%string).

Definition update_logic : M System Sensors :=
  try_except
    (sensors <- read_sensors ;;
     let presence := presence sensors in
     let storm := storm sensors in
     let clouds := clouds sensors in
     me <- get_self ;;
     (if negb (storm_led (manual_override me))
      then pin_set LED1_PIN (if storm then 0 else 1) else ret tt) ;;;
     me <- get_self ;;
     (if negb (clouds_led (manual_override me))
      then pin_set LED2_PIN (if clouds then 0 else 1) else ret tt) ;;;
     me <- get_self ;;
     d <- (if negb (antenna (manual_override me)) then
             let '(should_connect, reason) :=
               antenna_rule presence storm clouds (weather_status sensors) in
             let current_state := antenna_connected sensors in
             (if bool_ne should_connect current_state
              then pin_set ANTENNA_PIN (if should_connect then 1 else 0)
              else ret tt) ;;;
             me <- get_self ;;
             (if negb (on_air_led (manual_override me))
              then pin_set LED3_PIN (if should_connect then 0 else 1)
              else ret tt) ;;;
             ret (should_connect, reason)
           else ret (antenna_connected sensors, "Manual override active"%string)) ;;
     let '(should_connect, reason) := d in
     me <- get_self ;;
     ret (mkSensors presence storm clouds (antenna_connected sensors)
                    (temperature sensors) (humidity sensors)
                    (weather_status sensors) (dht_status sensors)
                    (timestamp sensors)
                    (Some reason) (Some should_connect)
                    (Some (manual_override me))))
    (fun _ => read_sensors).

Definition control_antenna (connect manual : bool) : M System unit :=
  try_except
    (pin_set ANTENNA_PIN (if connect then 1 else 0) ;;;
     if manual then
       me <- get_self ;;
       let o := manual_override me in
       set_manual_override
         (mkOverrides (storm_led o) (clouds_led o) (on_air_led o) true) ;;;
       me <- get_self ;;
       let o := manual_override me in
       set_manual_override
         (mkOverrides (storm_led o) (clouds_led o) true (antenna o)) ;;;
       pin_set LED3_PIN (if connect then 0 else 1)
     else ret tt)
    (fun _ => ret tt).

Definition control_led (led_type : string) (state : bool) : M System unit :=
  try_except
    (let led_value := if state then 0 else 1 in
     if String.eqb led_type "storm" || String.eqb led_type "led1" then
       pin_set LED1_PIN led_value ;;;
       me <- get_self ;;
       let o := manual_override me in
       set_manual_override
         (mkOverrides true (clouds_led o) (on_air_led o) (antenna o))
     else if String.eqb led_type "clouds" || String.eqb led_type "led2" then
       pin_set LED2_PIN led_value ;;;
       me <- get_self ;;
       let o := manual_override me in
       set_manual_override
         (mkOverrides (storm_led o) true (on_air_led o) (antenna o))
     else if String.eqb led_type "on_air" || String.eqb led_type "led3" then
       pin_set LED3_PIN led_value ;;;
       me <- get_self ;;
       let o := manual_override me in
       set_manual_override
         (mkOverrides (storm_led o) (clouds_led o) true (antenna o))
     else ret tt)
    (fun _ => ret tt).

Definition reset_manual_overrides : M System unit :=
  set_manual_override (mkOverrides false false false false).

(** The four controllable outputs: a key of [manual_override] and the pin
    it guards. *)
Inductive channel := StormLed | CloudsLed | OnAirLed | Antenna.

Definition flag (c : channel) (o : Overrides) : bool :=
  match c with
  | StormLed => storm_led o
  | CloudsLed => clouds_led o
  | OnAirLed => on_air_led o
  | Antenna => antenna o
  end.

Definition pin_of (c : channel) : gpio :=
  match c with
  | StormLed => LED1_PIN
  | CloudsLed => LED2_PIN
  | OnAirLed => LED3_PIN
  | Antenna => ANTENNA_PIN
  end.

Definition inputs : list gpio := [PIR_PIN; STORM_PIN].
Definition outputs : list gpio := [ANTENNA_PIN; LED1_PIN; LED2_PIN; LED3_PIN].

(** [sensors.get('on_air', False)], as the status page reads the decision. *)
Definition get_on_air (s : Sensors) : bool :=
  match on_air s with Some b => b | None => false end.

(** What the world outside does between two requests: new levels on the
    two sensor pins, a new DHT11 reading, time passing, pins breaking or
    recovering.  The levels of the output pins and the record of writes
    are the board's own. *)
Record Env := mkEnv {
  env_pir : Z;
  env_storm : Z;
  env_dht : DhtMeasure;
  env_ticks : Z;
  env_fault : gpio -> option string
}.

Definition sense (e : Env) (h : Hardware) : Hardware :=
  {| level := fun p => if p =? PIR_PIN then env_pir e
                       else if p =? STORM_PIN then env_storm e
                       else level h p;
     fault := env_fault e;
     dht := env_dht e;
     ticks := env_ticks e;
     writes := writes h |}.

(** One automatic cycle per environment of the list, in order. *)
Fixpoint auto_cycles (es : list Env) (w : System) : System :=
  match es with
  | [] => w
  | e :: es' =>
      auto_cycles es' (snd (update_logic (mkWorld (self w) (sense e (hw w)))))
  end.

(** The exception that the three pin reads of [read_sensors] end in, if
    any: the reads are done in this order and the first broken pin raises. *)
Definition first_fault (h : Hardware) : option string :=
  match fault h PIR_PIN with
  | Some e => Some e
  | None =>
      match fault h STORM_PIN with
      | Some e => Some e
      | None => fault h ANTENNA_PIN
      end
  end.

(** A controller on the bench: thresholds of [__init__], the DHT11 found,
    the given flags and pin levels, the three LEDs off (high). *)
Definition demo (o : Overrides) (pir storm relay : Z) (broken : list gpio)
           (d : DhtMeasure) : System :=
  mkWorld (mkController true 80 5 35 o)
          (bench [(PIR_PIN, pir); (STORM_PIN, storm); (ANTENNA_PIN, relay);
                  (LED1_PIN, 1); (LED2_PIN, 1); (LED3_PIN, 1)]
                 broken d 1000).

(** The coupling that [control_antenna] sets up between two flags. *)
Definition linked (o : Overrides) : Prop :=
  antenna o = true -> on_air_led o = true.

(** *** The output tests and the request handler *)

(** [__init__]: the pins are driven to off (relay low, LEDs high), in this
    order, and the attributes get their first values; [dht_ok] tells
    whether the DHT11 object could be made. *)
Definition init (dht_ok : bool) : M System unit :=
  pin_set ANTENNA_PIN 0 ;;;
  pin_set LED3_PIN 1 ;;;
  pin_set LED1_PIN 1 ;;;
  pin_set LED2_PIN 1 ;;;
  set_self (init_self dht_ok).

Definition test_all_outputs : M System unit :=
  let outputs :=
    [(("Storm LED (pin " ++ fmt_int LED1_PIN ++ ")")%string, LED1_PIN);
     (("Weather LED (pin " ++ fmt_int LED2_PIN ++ ")")%string, LED2_PIN);
     (("On Air LED (pin " ++ fmt_int LED3_PIN ++ ")")%string, LED3_PIN);
     (("Antenna Relay (pin " ++ fmt_int ANTENNA_PIN ++ ")")%string, ANTENNA_PIN)] in
  for_each outputs
    (fun '(name, pin) =>
       if py_in "LED" name then
         pin_set pin 0 ;;; pin_set pin 1
       else
         pin_set pin 1 ;;; pin_set pin 0).

Definition test_individual_leds : M System unit :=
  repeat_times 3 (pin_set LED1_PIN 0 ;;; pin_set LED1_PIN 1) ;;;
  repeat_times 3 (pin_set LED2_PIN 0 ;;; pin_set LED2_PIN 1) ;;;
  repeat_times 3 (pin_set LED3_PIN 0 ;;; pin_set LED3_PIN 1).

(** The client socket of one connection: what [recv(1024).decode()] gives
    ([inl e]: it raises), and whether [send] raises.  [close] sits in a
    [try] of its own and touches neither the board nor the object. *)
Record Client := mkClient {
  recv : string + string;
  send_fault : option string
}.

(** What is sent back.  The page and the JSON text are rendered from the
    dict by [generate_html] and [json.dumps], which read it and nothing
    else; the response keeps the dict they were given. *)
Inductive Response :=
| Html (sensors : Sensors)
| Json (sensors : Sensors)
| Text (response : string).

Definition plain (status body : string) : Response :=
  Text ("HTTP/1.1 " ++ status ++ crlf ++ "Content-Type: text/plain" ++ crlf
        ++ "Connection: close" ++ crlf ++ crlf ++ body)%string.

Definition error_response : Response :=
  Text ("HTTP/1.1 500 INTERNAL SERVER ERROR" ++ crlf ++ "Connection: close"
        ++ crlf ++ crlf ++ "Server Error")%string.

Definition client_recv (c : Client) : M System string :=
  fun w => match recv c with
           | inl e => (Raised e, w)
           | inr request => (Ok request, w)
           end.

Definition client_send (c : Client) (r : Response) : M System unit :=
  fun w => match send_fault c with
           | Some e => (Raised e, w)
           | None => (Ok tt, w)
           end.

(** The path of a request, as [handle_request] parses it. *)
Definition request_path (request : string) : string :=
  let request_line := List.hd EmptyString (py_split crlf request) in
  if py_in " " request_line then
    let parts := py_split " " request_line in
    if (2 <=? List.length parts)%nat then List.nth 1 parts EmptyString
    else "/"%string
  else "/"%string.

(** The [if path == ... elif ...] chain of [handle_request]. *)
Definition route (path : string) (sensors : Sensors) : M System Response :=
  if String.eqb path "/" then ret (Html sensors)
  else if String.eqb path "/antenna/on" then
    control_antenna true true ;;; ret (plain "200 OK" "Antenna Connected")
  else if String.eqb path "/antenna/off" then
    control_antenna false true ;;; ret (plain "200 OK" "Antenna Disconnected")
  else if String.eqb path "/led/storm/on" then
    control_led "storm" true ;;; ret (plain "200 OK" "Storm LED ON")
  else if String.eqb path "/led/storm/off" then
    control_led "storm" false ;;; ret (plain "200 OK" "Storm LED OFF")
  else if String.eqb path "/led/clouds/on" then
    control_led "clouds" true ;;; ret (plain "200 OK" "Clouds LED ON")
  else if String.eqb path "/led/clouds/off" then
    control_led "clouds" false ;;; ret (plain "200 OK" "Clouds LED OFF")
  else if String.eqb path "/led/on_air/on" then
    control_led "on_air" true ;;; ret (plain "200 OK" "On Air LED ON")
  else if String.eqb path "/led/on_air/off" then
    control_led "on_air" false ;;; ret (plain "200 OK" "On Air LED OFF")
  else if String.eqb path "/test/outputs" then
    test_all_outputs ;;; ret (plain "200 OK" "Output test completed")
  else if String.eqb path "/test/individual" then
    test_individual_leds ;;;
    ret (plain "200 OK" "Individual LED test completed")
  else if String.eqb path "/reset/overrides" then
    reset_manual_overrides ;;;
    ret (plain "200 OK" "Manual overrides reset - back to automatic")
  else if String.eqb path "/api/status" then ret (Json sensors)
  else ret (plain "404 NOT FOUND" "404 - Not Found").

(** [handle_request]: the response the client was sent, if any. *)
Definition handle_request (c : Client) : M System (option Response) :=
  try_except
    (request <- client_recv c ;;
     if String.eqb request EmptyString then ret None
     else
       let path := request_path request in
       sensors <- update_logic ;;
       response <- route path sensors ;;
       client_send c response ;;;
       ret (Some response))
    (fun _ =>
       try_except (client_send c error_response ;;; ret (Some error_response))
                  (fun _ => ret None)).

(** The paths whose handler calls a manual command or the reset. *)
Definition command_paths : list string :=
  ["/antenna/on"; "/antenna/off"; "/led/storm/on"; "/led/storm/off";
   "/led/clouds/on"; "/led/clouds/off"; "/led/on_air/on"; "/led/on_air/off";
   "/reset/overrides"]%string.

(** The names [control_led] knows for a channel. *)
Definition led_names (c : channel) : list string :=
  match c with
  | StormLed => ["storm"; "led1"]
  | CloudsLed => ["clouds"; "led2"]
  | OnAirLed => ["on_air"; "led3"]
  | Antenna => []
  end%string.

(** Setting the flag of one channel. *)
Definition set_flag (c : channel) (o : Overrides) : Overrides :=
  match c with
  | StormLed => mkOverrides true (clouds_led o) (on_air_led o) (antenna o)
  | CloudsLed => mkOverrides (storm_led o) true (on_air_led o) (antenna o)
  | OnAirLed => mkOverrides (storm_led o) (clouds_led o) true (antenna o)
  | Antenna => mkOverrides (storm_led o) (clouds_led o) (on_air_led o) true
  end.

Definition with_overrides (o : Overrides) (me : Controller) : Controller :=
  mkController (dht11_sensor me) (humidity_threshold me) (temp_min me)
               (temp_max me) o.

(** The requests of the server loop, one connection after the other; the
    world outside moves before each of them. *)
Fixpoint serve (rs : list (Env * Client)) (w : System) : System :=
  match rs with
  | [] => w
  | (e, c) :: rs' =>
      serve rs' (snd (handle_request c (mkWorld (self w) (sense e (hw w)))))
  end.

(** A call of a method of the object from outside, once [__init__] has
    returned. *)
Inductive Call :=
| CallReadDht11
| CallReadSensors
| CallUpdateLogic
| CallSetWeatherThresholds (humidity_max tmin tmax : Z)
| CallControlAntenna (connect manual : bool)
| CallControlLed (led_type : string) (state : bool)
| CallResetManualOverrides
| CallTestAllOutputs
| CallTestIndividualLeds
| CallHandleRequest (c : Client).

Definition call (m : Call) : M System unit :=
  match m with
  | CallReadDht11 => read_dht11 ;;; ret tt
  | CallReadSensors => read_sensors ;;; ret tt
  | CallUpdateLogic => update_logic ;;; ret tt
  | CallSetWeatherThresholds humidity_max tmin tmax =>
      set_weather_thresholds humidity_max tmin tmax
  | CallControlAntenna connect manual => control_antenna connect manual
  | CallControlLed led_type state => control_led led_type state
  | CallResetManualOverrides => reset_manual_overrides
  | CallTestAllOutputs => test_all_outputs
  | CallTestIndividualLeds => test_individual_leds
  | CallHandleRequest c => handle_request c ;;; ret tt
  end.

(** The states the object gets into: any calls in a row, the world outside
    moving before each of them; a call that raises leaves the state it had
    reached. *)
Fixpoint calls (ms : list (Env * Call)) (w : System) : System :=
  match ms with
  | [] => w
  | (e, m) :: ms' =>
      calls ms' (snd (call m (mkWorld (self w) (sense e (hw w)))))
  end.

(** Computations that assign no attribute of the object and leave the
    presence pin alone. *)
Definition bystander {A} (c : M System A) : Prop :=
  forall me v l, keeps (pin_frame me PIR_PIN v l) c.

End Main.

(** * Properties *)

(** ** Rules for invariants *)

Section Rules.
Context {St : Type}.

Lemma keeps_ret {A} (I : St -> Prop) (a : A) : keeps I (ret a).
Proof. intros s H. exact H. Qed.

Lemma keeps_bind {A B} (I : St -> Prop) (c : M St A) (k : A -> M St B) :
  keeps I c -> (forall a, keeps I (k a)) -> keeps I (bind c k).
Proof.
  intros Hc Hk s Hs. unfold bind. specialize (Hc s Hs).
  destruct (c s) as [[a|e] s1]; cbn in *.
  - apply Hk, Hc.
  - exact Hc.
Qed.

Lemma keeps_try_except {A} (I : St -> Prop) (c : M St A) (h : string -> M St A) :
  keeps I c -> (forall e, keeps I (h e)) -> keeps I (try_except c h).
Proof.
  intros Hc Hh s Hs. unfold try_except. specialize (Hc s Hs).
  destruct (c s) as [[a|e] s1]; cbn in *.
  - exact Hc.
  - apply Hh, Hc.
Qed.

Lemma keeps_if {A} (I : St -> Prop) (b : bool) (c1 c2 : M St A) :
  (b = true -> keeps I c1) -> (b = false -> keeps I c2) ->
  keeps I (if b then c1 else c2).
Proof. destruct b; auto. Qed.
End Rules.

Section PinRules.
Context {Self : Type}.
Implicit Types (I : World Self -> Prop) (w : World Self).

Lemma keeps_get_self {B} I (me : Self) (k : Self -> M (World Self) B) :
  (forall w, I w -> self w = me) -> keeps I (k me) -> keeps I (bind get_self k).
Proof.
  intros Hme Hk w Hw. unfold bind, get_self. rewrite (Hme w Hw). apply Hk, Hw.
Qed.

Lemma writes_to_drive_other (p q : gpio) (v : Z) (h : Hardware) :
  q <> p -> writes_to p (drive q v h) = writes_to p h.
Proof.
  intros Hq. unfold writes_to, drive; cbn. rewrite filter_app; cbn.
  destruct (Z.eqb_spec q p); [contradiction|]. apply app_nil_r.
Qed.

Lemma keeps_pin_set_other (me : Self) p v l (q : gpio) (x : Z) :
  q <> p -> keeps (pin_frame me p v l) (pin_set q x).
Proof.
  intros Hq w (Hm & Hl & Hw). unfold pin_set, pin_frame.
  destruct (fault (hw w) q); cbn [snd self hw]; [now repeat split|].
  split; [assumption|split].
  - cbn [drive level]. destruct (Z.eqb_spec p q); [congruence|assumption].
  - rewrite writes_to_drive_other; assumption.
Qed.

End PinRules.

(** ** main.py *)

Module MainFacts.
Import Main.

Lemma read_dht11_total (w : System) : exists r, read_dht11 w = (Ok r, w).
Proof.
  unfold read_dht11, try_except, bind, get_self, dht_measure, ret.
  destruct (dht11_sensor (self w)); cbn [negb]; [|eauto].
  destruct (dht (hw w)) as [e|[t|] [h|]]; eauto.
  match goal with |- context [if ?b then _ else _] => destruct b end; eauto.
Qed.

Lemma read_sensors_try_state (w : System) : snd (read_sensors_try w) = w.
Proof.
  unfold read_sensors_try, bind, pin_get.
  repeat match goal with
  | |- context [match fault ?a ?p with _ => _ end] => destruct (fault a p)
  end; try reflexivity.
  destruct (read_dht11_total w) as [[[t h] st] ->].
  unfold get_self, ticks_ms, ret. destruct (weather _ _ _ _). reflexivity.
Qed.

(** [read_sensors] always returns a dict, and touches nothing. *)
Lemma read_sensors_total (w : System) : exists s, read_sensors w = (Ok s, w).
Proof.
  unfold read_sensors, try_except.
  pose proof (read_sensors_try_state w) as H.
  destruct (read_sensors_try w) as [[s|e] w1]; cbn in H; subst w1;
    unfold bind, ticks_ms, ret; eauto.
Qed.

Lemma keeps_read_sensors (I : System -> Prop) : keeps I read_sensors.
Proof. intros w Hw. destruct (read_sensors_total w) as [s ->]. exact Hw. Qed.

(** [update_logic] always returns a dict. *)
Lemma update_logic_total (w : System) :
  exists s w', update_logic w = (Ok s, w').
Proof.
  unfold update_logic, try_except.
  match goal with |- context [match ?c w with _ => _ end] =>
    destruct (c w) as [[s|e] w1] end; eauto.
  destruct (read_sensors_total w1) as [s ->]. eauto.
Qed.

Ltac keeps_step :=
  lazymatch goal with
  | |- keeps _ (try_except _ _) => apply keeps_try_except; [|intros ?]
  | |- keeps _ (bind get_self _) =>
      eapply keeps_get_self; [intros ? (? & _); eassumption|]; cbn beta
  | |- keeps _ (bind _ _) => apply keeps_bind; [|intros ?]
  | |- keeps _ read_sensors => apply keeps_read_sensors
  | |- keeps _ (ret _) => apply keeps_ret
  | |- keeps _ (if ?b then _ else _) => apply keeps_if; intros ?
  | |- keeps _ (let '(_, _) := ?x in _) => destruct x
  | |- keeps _ (pin_set _ _) => apply keeps_pin_set_other; discriminate
  end.

(** One automatic cycle leaves an overridden channel alone. *)
Lemma update_logic_frame (c : channel) (me : Controller) v l :
  flag c (manual_override me) = true ->
  keeps (pin_frame me (pin_of c) v l) update_logic.
Proof.
  intros Hf. unfold update_logic.
  destruct c; cbn in Hf; cbn [pin_of]; cbv zeta.
  all: repeat first [ keeps_step | rewrite Hf in *; discriminate ].
Qed.

Lemma auto_cycles_frame (c : channel) (es : list Env) :
  forall w : System,
    flag c (manual_override (self w)) = true ->
    pin_frame (self w) (pin_of c) (level (hw w) (pin_of c))
              (writes_to (pin_of c) (hw w)) (auto_cycles es w).
Proof.
  induction es as [|e es IH]; intros w Hf; cbn [auto_cycles].
  - now repeat split.
  - set (w0 := mkWorld (self w) (sense e (hw w))).
    assert (H0 : pin_frame (self w) (pin_of c) (level (hw w) (pin_of c))
                           (writes_to (pin_of c) (hw w)) w0).
    { repeat split. destruct c; reflexivity. }
    apply (update_logic_frame c _ _ _ Hf) in H0.
    destruct H0 as (Hs & Hl & Hw).
    destruct (IH (snd (update_logic w0))) as (Hs' & Hl' & Hw').
    { now rewrite Hs. }
    repeat split; congruence.
Qed.

(** A manual LED command under a name of another channel leaves the
    channel alone. *)
Lemma control_led_other_frame (c : channel) (led_type : string) (state : bool)
      (w : System) :
  ~ In led_type (led_names c) ->
  let w' := snd (control_led led_type state w) in
  flag c (manual_override (self w')) = flag c (manual_override (self w)) /\
  level (hw w') (pin_of c) = level (hw w) (pin_of c) /\
  writes_to (pin_of c) (hw w') = writes_to (pin_of c) (hw w).
Proof.
  intros Hn. destruct w as [[dh ht tmn tmx [o1 o2 o3 o4]] h].
  unfold control_led, set_manual_override, try_except, bind, pin_set,
    get_self, set_self, ret.
  cbv zeta.
  repeat match goal with
  | |- context [String.eqb led_type ?x] =>
      destruct (String.eqb_spec led_type x) as [->|?]
  end.
  all: cbn [orb hw self].
  all: try solve [exfalso; apply Hn; destruct c; cbn; auto].
  all: try discriminate.
  all: repeat match goal with
       | |- context [match fault ?a ?p with _ => _ end] => destruct (fault a p)
       end.
  all: cbn [snd hw self manual_override].
  all: try solve [repeat split].
  all: destruct c; cbn [flag pin_of storm_led clouds_led on_air_led antenna
                        led_names] in *.
  all: try solve [exfalso; apply Hn; cbn; auto].
  all: repeat split; try reflexivity.
  all: unfold writes_to; cbn [writes drive]; rewrite filter_app; cbn;
    apply app_nil_r.
Qed.

(** The manual antenna command leaves the storm LED and the clouds LED
    alone. *)
Lemma control_antenna_led_frame (c : channel) (connect manual : bool)
      (w : System) :
  c = StormLed \/ c = CloudsLed ->
  let w' := snd (control_antenna connect manual w) in
  flag c (manual_override (self w')) = flag c (manual_override (self w)) /\
  level (hw w') (pin_of c) = level (hw w) (pin_of c) /\
  writes_to (pin_of c) (hw w') = writes_to (pin_of c) (hw w).
Proof.
  intros Hc. destruct w as [[dh ht tmn tmx [o1 o2 o3 o4]] h].
  unfold control_antenna, set_manual_override, try_except, bind, pin_set,
    get_self, set_self, ret.
  cbn [hw self].
  destruct (fault h ANTENNA_PIN); [now repeat split|].
  destruct manual; cbn [hw self fault drive manual_override storm_led
                        clouds_led on_air_led antenna].
  - destruct (fault h LED3_PIN); cbn [snd hw self manual_override];
      destruct Hc as [-> | ->]; cbn [flag pin_of storm_led clouds_led];
      repeat split; try reflexivity;
      unfold writes_to; cbn [writes drive]; rewrite ?filter_app; cbn;
      now rewrite ?app_nil_r.
  - cbn [snd hw self manual_override];
      destruct Hc as [-> | ->]; cbn [flag pin_of storm_led clouds_led];
      repeat split; try reflexivity;
      unfold writes_to; cbn [writes drive]; rewrite ?filter_app; cbn;
      now rewrite ?app_nil_r.
Qed.

(** C3, as far as it holds: what leaves an overridden channel alone.  For
    every channel of the four and every state in which its flag is true,
    [update_logic] leaves the flags as they are, the pin of the channel at
    its level and the list of writes done on that pin unchanged; and so
    does any run of automatic cycles, whatever the sensors read before each
    of them.  A manual LED command under a name of another channel, and
    the manual antenna command when the channel is the storm LED or the
    clouds LED, leave the channel's flag, level and writes as they are
    too; the reset writes no pin.  Among the other calls, the two output
    tests and, for the on-air LED, the manual antenna command do write an
    overridden channel. *)
Theorem override_blocks_automatic_writes (c : channel) (w : System) :
  flag c (manual_override (self w)) = true ->
  (let w' := snd (update_logic w) in
   manual_override (self w') = manual_override (self w) /\
   level (hw w') (pin_of c) = level (hw w) (pin_of c) /\
   writes_to (pin_of c) (hw w') = writes_to (pin_of c) (hw w)) /\
  (forall es : list Env,
     let w' := auto_cycles es w in
     flag c (manual_override (self w')) = true /\
     level (hw w') (pin_of c) = level (hw w) (pin_of c) /\
     writes_to (pin_of c) (hw w') = writes_to (pin_of c) (hw w)) /\
  (forall (led_type : string) (state : bool),
     ~ In led_type (led_names c) ->
     let w' := snd (control_led led_type state w) in
     flag c (manual_override (self w')) = true /\
     level (hw w') (pin_of c) = level (hw w) (pin_of c) /\
     writes_to (pin_of c) (hw w') = writes_to (pin_of c) (hw w)) /\
  (c = StormLed \/ c = CloudsLed ->
   forall connect manual : bool,
     let w' := snd (control_antenna connect manual w) in
     flag c (manual_override (self w')) = true /\
     level (hw w') (pin_of c) = level (hw w) (pin_of c) /\
     writes_to (pin_of c) (hw w') = writes_to (pin_of c) (hw w)) /\
  hw (snd (reset_manual_overrides w)) = hw w.
Proof.
  intros Hf. split; [|split; [|split; [|split]]].
  - destruct (update_logic_frame c (self w) (level (hw w) (pin_of c))
                (writes_to (pin_of c) (hw w)) Hf w) as (Hs & Hl & Hw).
    + now repeat split.
    + cbv zeta. rewrite Hs. auto.
  - intros es. destruct (auto_cycles_frame c es w Hf) as (Hs & Hl & Hw).
    cbv zeta. rewrite Hs. auto.
  - intros led_type state Hn.
    destruct (control_led_other_frame c led_type state w Hn) as (H1 & H2 & H3).
    cbv zeta. rewrite H1. auto.
  - intros Hc connect manual.
    destruct (control_antenna_led_frame c connect manual w Hc) as (H1 & H2 & H3).
    cbv zeta. rewrite H1. auto.
  - reflexivity.
Qed.

(** C3 as stated fails in its second part: an overridden output changes
    without a manual command for its channel and without a reset.  From the
    state of [__init__] with the LEDs off: the storm LED is switched on by
    hand (flag set, pin low), then [test_all_outputs] leaves it off (pin
    high) with the flag still set, and so does [test_individual_leds]; and
    the on-air LED is switched on by hand, then the manual antenna command
    "off" switches it off. *)
Lemma overridden_output_changed_by_other_calls :
  let w0 := demo no_override 0 0 0 [] (Measured (Some 20) (Some 50)) in
  let w1 := snd (control_led "storm" true w0) in
  let w2 := snd (test_all_outputs w1) in
  let w3 := snd (test_individual_leds w1) in
  let v1 := snd (control_led "on_air" true w0) in
  let v2 := snd (control_antenna false true v1) in
  (storm_led (manual_override (self w1)) = true /\
   level (hw w1) LED1_PIN = 0 /\
   storm_led (manual_override (self w2)) = true /\
   level (hw w2) LED1_PIN = 1 /\
   writes_to LED1_PIN (hw w2) =
     writes_to LED1_PIN (hw w1) ++ [(LED1_PIN, 0); (LED1_PIN, 1)]) /\
  (storm_led (manual_override (self w3)) = true /\
   level (hw w3) LED1_PIN = 1) /\
  (on_air_led (manual_override (self v1)) = true /\
   level (hw v1) LED3_PIN = 0 /\
   on_air_led (manual_override (self v2)) = true /\
   level (hw v2) LED3_PIN = 1 /\
   writes_to LED3_PIN (hw v2) = writes_to LED3_PIN (hw v1) ++ [(LED3_PIN, 1)]).
Proof.
  intros w0 w1 w2 w3 v1 v2. vm_compute. repeat split.
Qed.

(** C7: the reset command.  [reset_manual_overrides] returns normally,
    leaves every one of the four flags false, and the board (levels and
    writes) exactly as it was. *)
Theorem reset_clears_flags_writes_nothing (w : System) :
  exists w',
    reset_manual_overrides w = (Ok tt, w') /\
    (forall c, flag c (manual_override (self w')) = false) /\
    hw w' = hw w.
Proof.
  eexists. split; [reflexivity|]. split; [|reflexivity].
  intros []; reflexivity.
Qed.

(** *** A cycle on a board whose output pins work *)

Lemma outputs_ok (h : Hardware) :
  pins_ok outputs h ->
  fault h ANTENNA_PIN = None /\ fault h LED1_PIN = None /\
  fault h LED2_PIN = None /\ fault h LED3_PIN = None.
Proof. intros H. repeat split; apply H; cbn; auto. Qed.

Ltac run_step :=
  first
  [ progress cbn [self hw manual_override storm_led clouds_led on_air_led
                  antenna negb fault drive fst snd andb eqb
                  presence storm clouds antenna_connected weather_status]
  | match goal with
    | H : read_sensors ?w = _ |- context [read_sensors ?w] => rewrite H
    | H : fault ?h ?p = None |- context [fault ?h ?p] => rewrite H
    | |- context [if negb ?b then _ else _] => is_var b; destruct b
    | |- context [if ?b then _ else _] => is_var b; destruct b
    end ].

Ltac run_cycle :=
  unfold update_logic, try_except, bind, get_self, ret, pin_set,
    antenna_rule, bool_ne;
  repeat run_step.

Ltac count_writes :=
  unfold writes_to; cbn [writes drive hw]; rewrite ?filter_app; cbn;
  rewrite ?app_nil_r.

(** What one automatic cycle returns and does when the antenna is not
    overridden, in terms of the dict [s] that [read_sensors] gave it. *)
Lemma automatic_cycle (w : System) (s : Sensors) :
  pins_ok outputs (hw w) ->
  read_sensors w = (Ok s, w) ->
  antenna (manual_override (self w)) = false ->
  let d := presence s && negb (storm s) in
  exists s' w',
    update_logic w = (Ok s', w') /\
    (presence s' = presence s /\ storm s' = storm s /\
     clouds s' = clouds s /\ antenna_connected s' = antenna_connected s) /\
    on_air s' = Some d /\
    (self w' = self w /\ fault (hw w') = fault (hw w) /\
     level (hw w') PIR_PIN = level (hw w) PIR_PIN /\
     level (hw w') STORM_PIN = level (hw w) STORM_PIN) /\
    level (hw w') ANTENNA_PIN =
      (if bool_ne d (antenna_connected s) then (if d then 1 else 0)
       else level (hw w) ANTENNA_PIN) /\
    writes_to ANTENNA_PIN (hw w') =
      writes_to ANTENNA_PIN (hw w) ++
      (if bool_ne d (antenna_connected s)
       then [(ANTENNA_PIN, if d then 1 else 0)] else []) /\
    (storm_led (manual_override (self w)) = false ->
     writes_to LED1_PIN (hw w') =
       writes_to LED1_PIN (hw w) ++ [(LED1_PIN, if storm s then 0 else 1)]) /\
    (clouds_led (manual_override (self w)) = false ->
     writes_to LED2_PIN (hw w') =
       writes_to LED2_PIN (hw w) ++ [(LED2_PIN, if clouds s then 0 else 1)]) /\
    (on_air_led (manual_override (self w)) = false ->
     writes_to LED3_PIN (hw w') =
       writes_to LED3_PIN (hw w) ++ [(LED3_PIN, if d then 0 else 1)] /\
     level (hw w') LED3_PIN = (if d then 0 else 1)).
Proof.
  intros Hout Hs Ha. apply outputs_ok in Hout.
  destruct Hout as (H1 & H2 & H3 & H4).
  destruct w as [[dh ht tmn tmx [o1 o2 o3 o4]] h].
  cbn [self hw manual_override antenna storm_led clouds_led on_air_led] in *.
  subst o4.
  destruct s as [p st c ac t hu ws ds ts cr oa mo].
  cbn [presence storm clouds antenna_connected].
  run_cycle.
  all: do 2 eexists; split; [reflexivity|].
  all: cbn [presence storm clouds antenna_connected on_air self hw fault
            andb negb].
  all: repeat split; try discriminate; try (intros _).
  all: try (count_writes; reflexivity).
  all: try reflexivity.
Qed.

Ltac bench_ok :=
  let p := fresh "p" in
  let Hin := fresh "Hin" in
  intros p Hin; cbn in Hin;
  repeat (destruct Hin as [<-|Hin]; [reflexivity|]); destruct Hin.

(** C3 at a board where the storm LED was switched on by hand (pin low)
    while a person is present and a storm is on. *)
Lemma override_blocks_automatic_writes_witness :
  let w := mkWorld (mkController true 80 5 35 (mkOverrides true false false false))
                   (bench [(PIR_PIN, 1); (STORM_PIN, 1); (LED1_PIN, 0)] []
                          (Measured (Some 20) (Some 50)) 7) in
  level (hw (snd (update_logic w))) LED1_PIN = 0 /\
  writes_to LED1_PIN (hw (snd (update_logic w))) = [].
Proof.
  intros w.
  destruct (override_blocks_automatic_writes StormLed w eq_refl)
    as [(_ & Hl & Hw) _].
  split; [exact Hl | exact Hw].
Defined.

(** C1: the antenna decision.  The antenna chain of [update_logic] yields
    [presence and not storm] as its target for all four combinations of the
    two sensors, whatever the clouds flag and the weather text; and in every
    state where the antenna is not overridden and the output pins accept
    writes, the cycle returns the dict of [read_sensors] with the decision
    [on_air] equal to [presence and not storm]: off under a storm, off with
    nobody present, on with a person and no storm. *)
Theorem antenna_decision_is_presence_and_not_storm (w : System) :
  antenna (manual_override (self w)) = false ->
  pins_ok outputs (hw w) ->
  (forall (p st c : bool) (ws : string),
     fst (antenna_rule p st c ws) = p && negb st) /\
  exists s0 s w',
    read_sensors w = (Ok s0, w) /\
    update_logic w = (Ok s, w') /\
    presence s = presence s0 /\ storm s = storm s0 /\ clouds s = clouds s0 /\
    on_air s = Some (presence s && negb (storm s)) /\
    (storm s = true -> on_air s = Some false) /\
    (presence s = false -> storm s = false -> on_air s = Some false) /\
    (presence s = true -> storm s = false -> on_air s = Some true).
Proof.
  intros Ha Hout. split.
  - intros [] [] c ws; reflexivity.
  - destruct (read_sensors_total w) as [s0 Hs].
    destruct (automatic_cycle w s0 Hout Hs Ha)
      as (s & w' & Hu & (Hp & Hst & Hc & _) & Ho & _).
    exists s0, s, w'. rewrite Hp, Hst, Hc, Ho.
    repeat split; auto.
    + now intros ->; rewrite andb_false_r.
    + now intros -> ->.
    + now intros -> ->.
Qed.

(** C1 with a person present, no storm and a humid day (clouds on): the
    decision is to connect. *)
Lemma antenna_decision_is_presence_and_not_storm_witness :
  let w := demo no_override 1 0 0 [] (Measured (Some 20) (Some 95)) in
  exists s w',
    update_logic w = (Ok s, w') /\ clouds s = true /\ on_air s = Some true.
Proof.
  intros w.
  assert (Hok : pins_ok outputs (hw w)) by bench_ok.
  destruct (antenna_decision_is_presence_and_not_storm w eq_refl Hok)
    as (_ & s0 & s & w' & Hs & Hu & Hp & Hst & Hc & Ho & _).
  exists s, w'. split; [exact Hu|].
  assert (E : s0 = fst (let (o, _) := read_sensors w in
                        match o with Ok x => (x, tt) | Raised _ => (s0, tt) end))
    by now rewrite Hs.
  vm_compute in E. subst s0. cbn in Hp, Hst, Hc.
  rewrite Ho, Hp, Hst. split; [exact Hc|reflexivity].
Defined.

(** C8: the manual antenna command.  On a board whose relay and on-air LED
    pins accept writes, and whatever the four flags were,
    [control_antenna connect True] returns normally, has written the relay
    to the level asked for and the on-air LED to match (low is on), in this
    order and nothing else, and leaves both the antenna flag and the on-air
    LED flag set, the other two flags as they were. *)
Theorem manual_antenna_command (w : System) (connect : bool) :
  fault (hw w) ANTENNA_PIN = None ->
  fault (hw w) LED3_PIN = None ->
  exists w',
    control_antenna connect true w = (Ok tt, w') /\
    writes (hw w') = writes (hw w) ++
                     [(ANTENNA_PIN, if connect then 1 else 0);
                      (LED3_PIN, if connect then 0 else 1)] /\
    level (hw w') ANTENNA_PIN = (if connect then 1 else 0) /\
    level (hw w') LED3_PIN = (if connect then 0 else 1) /\
    antenna (manual_override (self w')) = true /\
    on_air_led (manual_override (self w')) = true /\
    storm_led (manual_override (self w')) = storm_led (manual_override (self w)) /\
    clouds_led (manual_override (self w')) = clouds_led (manual_override (self w)).
Proof.
  intros Ha Hl. destruct w as [me h]; cbn [hw self] in *.
  unfold control_antenna, set_manual_override, try_except, bind, pin_set,
    get_self, set_self, ret.
  cbn [hw self fault drive]. rewrite Ha. cbn [hw self fault drive].
  rewrite Hl. eexists. split; [reflexivity|].
  cbn [hw self writes drive level manual_override antenna on_air_led
       storm_led clouds_led].
  rewrite <- app_assoc. repeat split.
Qed.

(** C8 on a board with every channel automatic and the relay off: switching
    the antenna on by hand. *)
Lemma manual_antenna_command_witness :
  let w := demo no_override 0 0 0 [] (Measured (Some 20) (Some 50)) in
  exists w',
    control_antenna true true w = (Ok tt, w') /\
    writes (hw w') = [(ANTENNA_PIN, 1); (LED3_PIN, 0)] /\
    manual_override (self w') = mkOverrides false false true true.
Proof.
  intros w.
  destruct (manual_antenna_command w true eq_refl eq_refl)
    as (w' & Hc & Hw & _ & _ & H1 & H2 & H3 & H4).
  exists w'. split; [exact Hc|]. split; [exact Hw|].
  destruct w' as [[d a b c [o1 o2 o3 o4]] h]. cbn in H1, H2, H3, H4.
  cbn. now subst.
Defined.

(** *** The on-air LED and the antenna flag *)

(** With the antenna overridden, a cycle leaves the on-air LED alone,
    whatever the LED's own flag. *)
Lemma update_logic_frame_on_air (me : Controller) v l :
  antenna (manual_override me) = true ->
  keeps (pin_frame me LED3_PIN v l) update_logic.
Proof.
  intros Hf. unfold update_logic. cbv zeta.
  repeat first [ keeps_step | rewrite Hf in *; discriminate ].
Qed.

(** A cycle assigns no attribute of the object. *)
Lemma update_logic_self (w : System) : self (snd (update_logic w)) = self w.
Proof.
  assert (H : keeps (pin_frame (self w) PIR_PIN (level (hw w) PIR_PIN)
                               (writes_to PIR_PIN (hw w))) update_logic).
  { unfold update_logic. cbv zeta. repeat keeps_step. }
  apply H. now repeat split.
Qed.

(** [__init__] sets up the coupling and every method keeps it: no call
    sequence of the class reaches a state with the antenna overridden and
    the on-air LED automatic. *)
Lemma linked_init (dht_ok : bool) : linked (manual_override (init_self dht_ok)).
Proof. discriminate. Qed.

Lemma linked_update_logic (w : System) :
  linked (manual_override (self w)) ->
  linked (manual_override (self (snd (update_logic w)))).
Proof. now rewrite update_logic_self. Qed.

Lemma linked_control_antenna (connect manual : bool) (w : System) :
  linked (manual_override (self w)) ->
  linked (manual_override (self (snd (control_antenna connect manual w)))).
Proof.
  destruct w as [[d a b c [o1 o2 o3 o4]] h]. unfold linked.
  unfold control_antenna, set_manual_override, try_except, bind, pin_set,
    get_self, set_self, ret.
  cbn [hw self fault drive manual_override antenna on_air_led].
  destruct (fault h ANTENNA_PIN); cbn; auto.
  destruct manual; cbn; auto.
  destruct (fault h LED3_PIN); cbn; auto.
Qed.

Lemma linked_control_led (led_type : string) (state : bool) (w : System) :
  linked (manual_override (self w)) ->
  linked (manual_override (self (snd (control_led led_type state w)))).
Proof.
  destruct w as [[d a b c [o1 o2 o3 o4]] h]. unfold linked.
  unfold control_led, set_manual_override, try_except, bind, pin_set,
    get_self, set_self, ret.
  cbn [hw self fault drive manual_override antenna on_air_led].
  repeat match goal with
  | |- context [if ?b then _ else _] => destruct b
  | |- context [match fault ?a ?p with _ => _ end] => destruct (fault a p)
  end; cbn; auto.
Qed.

Lemma linked_reset (w : System) :
  linked (manual_override (self (snd (reset_manual_overrides w)))).
Proof. discriminate. Qed.

(** The on-air LED rule sits inside the antenna branch of [update_logic].
    On a board whose output pins accept writes and with the on-air LED flag
    clear: when the antenna flag is clear too, the cycle writes the on-air
    LED once, low (on) exactly when the decision [presence and not storm]
    is to connect; when the antenna flag is set, the cycle does no write on
    the on-air LED and leaves its level as it was. *)
Lemma on_air_led_rule_in_antenna_branch (w : System) :
  pins_ok outputs (hw w) ->
  on_air_led (manual_override (self w)) = false ->
  (antenna (manual_override (self w)) = false ->
   exists s w',
     update_logic w = (Ok s, w') /\
     on_air s = Some (presence s && negb (storm s)) /\
     writes_to LED3_PIN (hw w') =
       writes_to LED3_PIN (hw w) ++
       [(LED3_PIN, if presence s && negb (storm s) then 0 else 1)] /\
     level (hw w') LED3_PIN = (if presence s && negb (storm s) then 0 else 1)) /\
  (antenna (manual_override (self w)) = true ->
   writes_to LED3_PIN (hw (snd (update_logic w))) = writes_to LED3_PIN (hw w) /\
   level (hw (snd (update_logic w))) LED3_PIN = level (hw w) LED3_PIN).
Proof.
  intros Hout Ho. split; intros Ha.
  - destruct (read_sensors_total w) as [s0 Hs].
    destruct (automatic_cycle w s0 Hout Hs Ha)
      as (s & w' & Hu & (Hp & Hst & _) & Hd & _ & _ & _ & _ & _ & H3).
    destruct (H3 Ho) as [Hw Hl].
    exists s, w'. rewrite Hp, Hst. auto.
  - destruct (update_logic_frame_on_air (self w) (level (hw w) LED3_PIN)
                (writes_to LED3_PIN (hw w)) Ha w) as (_ & Hl & Hw).
    + now repeat split.
    + auto.
Qed.


(** *** Sensor faults *)

(** The [try] body of [read_sensors] raises exactly the first fault of the
    three pins it reads. *)
Lemma read_sensors_try_raises (w : System) (e : string) :
  fst (read_sensors_try w) = Raised e -> first_fault (hw w) = Some e.
Proof.
  unfold read_sensors_try, first_fault, bind, pin_get.
  destruct (fault (hw w) PIR_PIN); [now intros [= ->]|].
  destruct (fault (hw w) STORM_PIN); [now intros [= ->]|].
  destruct (fault (hw w) ANTENNA_PIN); [now intros [= ->]|].
  destruct (read_dht11_total w) as [[[t h] st] ->].
  unfold get_self, ticks_ms, ret. destruct (weather _ _ _ _). discriminate.
Qed.

Lemma read_sensors_fail_safe (w : System) (e : string) :
  first_fault (hw w) = Some e ->
  read_sensors w = (Ok (fail_safe (ticks (hw w))), w).
Proof.
  unfold first_fault, read_sensors, read_sensors_try, try_except, bind,
    pin_get, ticks_ms, ret.
  destruct (fault (hw w) PIR_PIN); [reflexivity|].
  destruct (fault (hw w) STORM_PIN); [reflexivity|].
  destruct (fault (hw w) ANTENNA_PIN); [reflexivity|discriminate].
Qed.

Ltac run_faulty_step e Hff :=
  first
  [ progress cbn [self hw manual_override storm_led clouds_led on_air_led
                  antenna negb fault drive fst snd andb eqb ticks
                  presence storm clouds antenna_connected weather_status
                  fail_safe]
  | match goal with
    | |- context [read_sensors ?w] =>
        rewrite (read_sensors_fail_safe w e) by exact Hff
    | |- context [if negb ?b then _ else _] => is_var b; destruct b
    | |- context [match fault ?h ?p with _ => _ end] => destruct (fault h p)
    end ].

(** A cycle whose sensor read fails: the dict it returns. *)
Lemma fail_safe_cycle (w : System) (e : string) :
  first_fault (hw w) = Some e ->
  exists s w',
    update_logic w = (Ok s, w') /\
    presence s = false /\ storm s = false /\ clouds s = false /\
    temperature s = None /\ humidity s = None /\
    get_on_air s = false /\
    writes_to ANTENNA_PIN (hw w') = writes_to ANTENNA_PIN (hw w).
Proof.
  intros Hff. destruct w as [[dh ht tmn tmx [o1 o2 o3 o4]] h].
  cbn [hw] in Hff.
  unfold update_logic, try_except, bind, get_self, ret, pin_set,
    antenna_rule, bool_ne.
  repeat run_faulty_step e Hff.
  all: do 2 eexists; split; [reflexivity|].
  all: repeat split.
  all: count_writes; reflexivity.
Qed.

(** The decision of a cycle whose sensor read fails.  The relay is not
    written; when the three LED pins accept writes the cycle gets to its
    end and returns the decision, which is off. *)
Lemma fail_safe_cycle_decision (w : System) (e : string) :
  first_fault (hw w) = Some e ->
  exists s w',
    update_logic w = (Ok s, w') /\
    (presence s = false /\ storm s = false /\ clouds s = false /\
     temperature s = None /\ humidity s = None) /\
    on_air s <> Some true /\
    writes_to ANTENNA_PIN (hw w') = writes_to ANTENNA_PIN (hw w) /\
    (fault (hw w) LED1_PIN = None -> fault (hw w) LED2_PIN = None ->
     fault (hw w) LED3_PIN = None ->
     on_air s = Some false /\
     control_reason s =
       Some (if antenna (manual_override (self w))
             then "Manual override active"%string
             else "No person detected"%string)).
Proof.
  intros Hff. destruct w as [[dh ht tmn tmx [o1 o2 o3 o4]] h].
  cbn [hw] in Hff.
  unfold update_logic, try_except, bind, get_self, ret, pin_set,
    antenna_rule, bool_ne.
  cbn [hw self manual_override antenna].
  repeat run_faulty_step e Hff.
  all: do 2 eexists; split; [reflexivity|].
  all: cbn [presence storm clouds temperature humidity on_air control_reason
            fail_safe].
  all: repeat split; try discriminate; try reflexivity.
  all: try (count_writes; reflexivity).
  all: intros; try discriminate; reflexivity.
Qed.

(** *** The weather rule *)

Lemma read_dht11_valid (w : System) (t h : Z) :
  dht11_sensor (self w) = true ->
  dht (hw w) = Measured (Some t) (Some h) ->
  -40 <= t <= 80 -> 0 <= h <= 100 ->
  read_dht11 w = (Ok (Some t, Some h, "OK"%string), w).
Proof.
  intros Hd Hm Ht Hh.
  unfold read_dht11, try_except, bind, get_self, dht_measure, ret.
  rewrite Hd. cbn [negb]. cbv beta. rewrite Hm.
  replace (-40 <=? t) with true by (symmetry; apply Z.leb_le; lia).
  replace (t <=? 80) with true by (symmetry; apply Z.leb_le; lia).
  replace (0 <=? h) with true by (symmetry; apply Z.leb_le; lia).
  replace (h <=? 100) with true by (symmetry; apply Z.leb_le; lia).
  reflexivity.
Qed.

(** C6: the weather rule of [read_sensors], in its order.  With the three
    pins readable and a DHT11 reading in range (temperature within -40..80,
    humidity within 0..100), [read_sensors] returns the reading and
    classifies it by the first test that holds: humidity above the humidity
    threshold gives poor weather with the humidity text, whatever the
    temperature; otherwise a temperature below the minimum gives poor
    weather with the cold text; otherwise a temperature above the maximum
    gives poor weather with the hot text; otherwise the weather is good.
    With the thresholds 80, 5 and 35, humidity 85 and temperature 2 are
    classified as poor weather by humidity. *)
Theorem weather_rule_order (w : System) (t h : Z) :
  pins_ok [PIR_PIN; STORM_PIN; ANTENNA_PIN] (hw w) ->
  dht11_sensor (self w) = true ->
  dht (hw w) = Measured (Some t) (Some h) ->
  -40 <= t <= 80 -> 0 <= h <= 100 ->
  (exists s,
     read_sensors w = (Ok s, w) /\
     temperature s = Some t /\ humidity s = Some h /\
     (humidity_threshold (self w) < h ->
      clouds s = true /\
      weather_status s =
        ("High humidity (" ++ fmt_int h ++ "%) - Cloudy")%string) /\
     (h <= humidity_threshold (self w) -> t < temp_min (self w) ->
      clouds s = true /\
      weather_status s =
        ("Cold weather (" ++ fmt_int t ++ "°C) - Poor conditions")%string) /\
     (h <= humidity_threshold (self w) -> temp_min (self w) <= t ->
      temp_max (self w) < t ->
      clouds s = true /\
      weather_status s =
        ("Hot weather (" ++ fmt_int t ++ "°C) - Extreme heat")%string) /\
     (h <= humidity_threshold (self w) ->
      temp_min (self w) <= t <= temp_max (self w) ->
      clouds s = false /\
      weather_status s =
        ("Good weather (" ++ fmt_int t ++ "°C, " ++ fmt_int h ++ "%)")%string)) /\
  weather (mkController true 80 5 35 no_override) (Some 2) (Some 85) "OK"
  = (true, "High humidity (85%) - Cloudy"%string).
Proof.
  intros Hp Hd Hm Ht Hh. split; [|reflexivity].
  assert (H1 : fault (hw w) PIR_PIN = None) by (apply Hp; cbn; auto).
  assert (H2 : fault (hw w) STORM_PIN = None) by (apply Hp; cbn; auto).
  assert (H3 : fault (hw w) ANTENNA_PIN = None) by (apply Hp; cbn; auto).
  unfold read_sensors, read_sensors_try, try_except, bind, pin_get.
  rewrite H1, H2, H3, (read_dht11_valid w t h Hd Hm Ht Hh).
  unfold get_self, ticks_ms, ret, weather.
  destruct (Z.gtb_spec h (humidity_threshold (self w)));
    [|destruct (Z.ltb_spec t (temp_min (self w)));
      [|destruct (Z.gtb_spec t (temp_max (self w)))]].
  all: eexists; split; [reflexivity|]; cbn [temperature humidity clouds
                                            weather_status].
  all: repeat split; intros; try lia.
Qed.

(** C6 at the spec's example: humidity 85 and temperature 2 under the
    thresholds of [__init__]. *)
Lemma weather_rule_order_witness :
  let w := demo no_override 0 0 0 [] (Measured (Some 2) (Some 85)) in
  exists s,
    read_sensors w = (Ok s, w) /\
    clouds s = true /\
    weather_status s = "High humidity (85%) - Cloudy"%string.
Proof.
  intros w.
  assert (Hok : pins_ok [PIR_PIN; STORM_PIN; ANTENNA_PIN] (hw w)) by bench_ok.
  destruct (weather_rule_order w 2 85 Hok eq_refl eq_refl
              ltac:(lia) ltac:(lia)) as [(s & Hs & _ & _ & Hh & _) _].
  exists s. split; [exact Hs|]. apply Hh. cbn. lia.
Defined.

(** *** Write-on-change *)

Lemma truthy_level (d : bool) : truthy (if d then 1 else 0) = d.
Proof. now destruct d. Qed.

Lemma bool_ne_same (d : bool) : bool_ne d d = false.
Proof. now destruct d. Qed.

(** With its three pins readable, [read_sensors] reports the levels. *)
Lemma read_sensors_levels (w : System) :
  pins_ok [PIR_PIN; STORM_PIN; ANTENNA_PIN] (hw w) ->
  exists s,
    read_sensors w = (Ok s, w) /\
    presence s = truthy (level (hw w) PIR_PIN) /\
    storm s = truthy (level (hw w) STORM_PIN) /\
    antenna_connected s = truthy (level (hw w) ANTENNA_PIN).
Proof.
  intros Hp.
  assert (H1 : fault (hw w) PIR_PIN = None) by (apply Hp; cbn; auto).
  assert (H2 : fault (hw w) STORM_PIN = None) by (apply Hp; cbn; auto).
  assert (H3 : fault (hw w) ANTENNA_PIN = None) by (apply Hp; cbn; auto).
  unfold read_sensors, read_sensors_try, try_except, bind, pin_get.
  rewrite H1, H2, H3.
  destruct (read_dht11_total w) as [[[t h] st] ->].
  unfold get_self, ticks_ms, ret. destruct (weather _ _ _ _).
  eexists. split; [reflexivity|]. repeat split.
Qed.

(** One automatic cycle, then a second one with the sensors unchanged, on a
    board whose pins all work and with the antenna not overridden. *)
Lemma main_write_on_change (w : System) :
  antenna (manual_override (self w)) = false ->
  pins_ok (inputs ++ outputs) (hw w) ->
  let d := truthy (level (hw w) PIR_PIN)
           && negb (truthy (level (hw w) STORM_PIN)) in
  let back := truthy (level (hw w) ANTENNA_PIN) in
  exists s w',
    update_logic w = (Ok s, w') /\
    on_air s = Some d /\
    writes_to ANTENNA_PIN (hw w') =
      writes_to ANTENNA_PIN (hw w) ++
      (if bool_ne d back then [(ANTENNA_PIN, if d then 1 else 0)] else []) /\
    (storm_led (manual_override (self w)) = false ->
     writes_to LED1_PIN (hw w') =
       writes_to LED1_PIN (hw w) ++
       [(LED1_PIN, if truthy (level (hw w) STORM_PIN) then 0 else 1)]) /\
    (clouds_led (manual_override (self w)) = false ->
     writes_to LED2_PIN (hw w') =
       writes_to LED2_PIN (hw w) ++ [(LED2_PIN, if clouds s then 0 else 1)]) /\
    (on_air_led (manual_override (self w)) = false ->
     writes_to LED3_PIN (hw w') =
       writes_to LED3_PIN (hw w) ++ [(LED3_PIN, if d then 0 else 1)]) /\
    exists s2 w2,
      update_logic w' = (Ok s2, w2) /\
      on_air s2 = Some d /\
      writes_to ANTENNA_PIN (hw w2) = writes_to ANTENNA_PIN (hw w').
Proof.
  intros Ha Hp d back.
  assert (Hin : forall h, fault h = fault (hw w) ->
                          pins_ok [PIR_PIN; STORM_PIN; ANTENNA_PIN] h).
  { intros h Hh p Hp'. rewrite Hh. apply Hp. cbn in *. intuition. }
  assert (Hout : forall h, fault h = fault (hw w) -> pins_ok outputs h).
  { intros h Hh p Hp'. rewrite Hh. apply Hp. cbn in *. intuition. }
  destruct (read_sensors_levels w (Hin _ eq_refl)) as (s0 & Hs & Hp0 & Hst0 & Hb0).
  destruct (automatic_cycle w s0 (Hout _ eq_refl) Hs Ha)
    as (s & w' & Hu & (_ & _ & Hc & _) & Ho & (Hme & Hf & Hl1 & Hl2) & Hla & Hwa
        & H1 & H2 & H3).
  cbv zeta in *. rewrite Hp0, Hst0, Hb0 in *. fold d back in Ho, Hla, Hwa, H3.
  exists s, w'. split; [exact Hu|]. split; [exact Ho|]. split; [exact Hwa|].
  split; [exact H1|]. split; [now rewrite Hc|]. split; [apply H3|].
  destruct (read_sensors_levels w' (Hin _ Hf)) as (s1 & Hs1 & Hp1 & Hst1 & Hb1).
  assert (Ha' : antenna (manual_override (self w')) = false) by now rewrite Hme.
  destruct (automatic_cycle w' s1 (Hout _ Hf) Hs1 Ha')
    as (s2 & w2 & Hu2 & _ & Ho2 & _ & _ & Hwa2 & _).
  cbv zeta in *. rewrite Hp1, Hst1, Hb1, Hl1, Hl2, Hla in *. fold d in Ho2, Hwa2.
  exists s2, w2. split; [exact Hu2|]. split; [exact Ho2|].
  rewrite Hwa2.
  destruct (bool_ne d back) eqn:E.
  - now rewrite truthy_level, bool_ne_same, app_nil_r.
  - fold back. now rewrite E, app_nil_r.
Qed.

End MainFacts.

(** ** renesans_template.py *)

Module TemplateFacts.
Import Template.

(** One cycle on a board whose pins work: the relay is driven to the target
    when the target differs from the level read back, and not at all
    otherwise. *)
Lemma template_cycle (w : System) :
  pins_ok pins (hw w) ->
  let d := truthy (level (hw w) PIR_PIN)
           && negb (truthy (level (hw w) STORM_PIN)) in
  let back := truthy (level (hw w) ANTENNA_PIN) in
  exists s,
    update_logic w =
      (Ok s, mkWorld (self w)
                     (if bool_ne d back
                      then drive ANTENNA_PIN (if d then 1 else 0) (hw w)
                      else hw w)) /\
    presence s = truthy (level (hw w) PIR_PIN) /\
    storm s = truthy (level (hw w) STORM_PIN) /\
    antenna_connected s = back.
Proof.
  intros Hp d back.
  assert (H1 : fault (hw w) PIR_PIN = None) by (apply Hp; cbn; auto).
  assert (H2 : fault (hw w) STORM_PIN = None) by (apply Hp; cbn; auto).
  assert (H3 : fault (hw w) ANTENNA_PIN = None) by (apply Hp; cbn; auto).
  destruct w as [me h]; cbn [hw self] in *.
  unfold update_logic, read_sensors, read_sensors_try, try_except, bind,
    pin_get, pin_set, ticks_ms, ret.
  repeat (cbn [hw self]; first [rewrite H1 | rewrite H2 | rewrite H3]).
  cbn [presence storm antenna_connected]. fold d back.
  destruct (bool_ne d back); cbn [hw self]; [rewrite H3|];
    eexists; (split; [reflexivity|]); repeat split.
Qed.

(** Write-on-change in the template: a first cycle writes the relay at most
    once, and only when the target differs from the level read back; a
    second cycle with the sensors unchanged writes nothing. *)
Lemma template_write_on_change (w : System) :
  pins_ok pins (hw w) ->
  let d := truthy (level (hw w) PIR_PIN)
           && negb (truthy (level (hw w) STORM_PIN)) in
  let back := truthy (level (hw w) ANTENNA_PIN) in
  exists s w',
    update_logic w = (Ok s, w') /\
    writes (hw w') =
      writes (hw w) ++
      (if bool_ne d back then [(ANTENNA_PIN, if d then 1 else 0)] else []) /\
    exists s2 w2,
      update_logic w' = (Ok s2, w2) /\ writes (hw w2) = writes (hw w').
Proof.
  intros Hp d back.
  destruct (template_cycle w Hp) as (s & Hu & _). fold d back in Hu.
  do 2 eexists. split; [exact Hu|]. cbn [hw].
  split; [destruct (bool_ne d back); cbn; now rewrite ?app_nil_r|].
  match goal with |- context [update_logic ?x] => set (w' := x) end.
  assert (Hp' : pins_ok pins (hw w')).
  { intros p Hin. subst w'. cbn [hw]. destruct (bool_ne d back); now apply Hp. }
  destruct (template_cycle w' Hp') as (s2 & Hu2 & _).
  do 2 eexists. split; [exact Hu2|]. cbn [hw].
  match goal with |- context [if ?b then _ else _] =>
    assert (E : b = false); [|now rewrite E] end.
  subst w'. cbn [hw].
  destruct (bool_ne d back) eqn:E; cbn; fold d.
  - destruct d; reflexivity.
  - exact E.
Qed.

End TemplateFacts.

(** ** renesans_latest.py *)

Module LatestFacts.
Import Latest.

Lemma pins_ok_all (h : Hardware) :
  pins_ok (inputs ++ outputs) h ->
  (fault h PIR_PIN = None /\ fault h STORM_PIN = None /\
   fault h CLOUDS_PIN = None) /\
  (fault h ANTENNA_PIN = None /\ fault h STORM_LED_PIN = None /\
   fault h CLOUDS_LED_PIN = None).
Proof. intros H. repeat split; apply H; cbn; auto 10. Qed.

Lemma antenna_rule_target (p st c : bool) :
  fst (antenna_rule p st c) = p && negb st.
Proof. now destruct p, st, c. Qed.

(** One cycle on a board whose pins work: both LEDs are driven from their
    sensors, every time; then the relay is driven to the target when the
    target differs from the level read back. *)
Lemma latest_cycle (w : System) :
  pins_ok (inputs ++ outputs) (hw w) ->
  let p := truthy (level (hw w) PIR_PIN) in
  let st := truthy (level (hw w) STORM_PIN) in
  let c := truthy (level (hw w) CLOUDS_PIN) in
  let back := truthy (level (hw w) ANTENNA_PIN) in
  let d := p && negb st in
  let h1 := drive CLOUDS_LED_PIN (if c then 1 else 0)
              (drive STORM_LED_PIN (if st then 1 else 0) (hw w)) in
  exists s,
    update_logic w =
      (Ok s, mkWorld (self w)
                     (if bool_ne d back
                      then drive ANTENNA_PIN (if d then 1 else 0) h1
                      else h1)) /\
    presence s = p /\ storm s = st /\ clouds s = c /\
    control_reason s = Some (snd (antenna_rule p st c)).
Proof.
  intros Hp p st c back d h1.
  destruct (pins_ok_all _ Hp) as [(H1 & H2 & H3) (H4 & H5 & H6)].
  destruct w as [me h]; cbn [hw self] in *.
  unfold update_logic, read_sensors, read_sensors_try, try_except, bind,
    pin_get, pin_set, ticks_ms, ret.
  repeat (cbn [hw self fault drive presence storm clouds antenna_connected];
          first [rewrite H1 | rewrite H2 | rewrite H3 | rewrite H4
                | rewrite H5 | rewrite H6]).
  fold p st c back. subst d h1.
  pose proof (antenna_rule_target p st c) as Hd.
  destruct (antenna_rule p st c) as [sc reason]. cbn [fst snd] in *. subst sc.
  destruct (bool_ne (p && negb st) back);
    repeat (cbn [hw self fault drive]; try rewrite H4);
    eexists; (split; [reflexivity|]); repeat split.
Qed.

(** The sensor read of this variant is fail-safe in the same way: when its
    [try] body raises, [read_sensors] returns the all-false dict. *)
Lemma latest_read_fail_safe (w : System) (e : string) :
  fst (read_sensors_try w) = Raised e ->
  read_sensors w =
    (Ok (mkSensors false false false false (ticks (hw w)) None), w).
Proof.
  unfold read_sensors, read_sensors_try, try_except, bind, pin_get,
    ticks_ms, ret.
  destruct (fault (hw w) PIR_PIN); [reflexivity|].
  destruct (fault (hw w) STORM_PIN); [reflexivity|].
  destruct (fault (hw w) CLOUDS_PIN); [reflexivity|].
  destruct (fault (hw w) ANTENNA_PIN); [reflexivity|discriminate].
Qed.

Lemma latest_read_sensors_total (w : System) :
  exists s, read_sensors w = (Ok s, w).
Proof.
  unfold read_sensors, read_sensors_try, try_except, bind, pin_get,
    ticks_ms, ret.
  destruct (fault (hw w) PIR_PIN); [eauto|].
  destruct (fault (hw w) STORM_PIN); [eauto|].
  destruct (fault (hw w) CLOUDS_PIN); [eauto|].
  destruct (fault (hw w) ANTENNA_PIN); eauto.
Qed.

Lemma latest_update_logic_total (w : System) :
  exists s w', update_logic w = (Ok s, w').
Proof.
  unfold update_logic, try_except.
  match goal with |- context [match ?c w with _ => _ end] =>
    destruct (c w) as [[s|e] w1] end; eauto.
  destruct (latest_read_sensors_total w1) as [s ->]. eauto.
Qed.

Ltac count_writes :=
  unfold writes_to; cbn [writes drive hw]; rewrite ?filter_app; cbn;
  rewrite ?app_nil_r.

Ltac bench_ok :=
  let p := fresh "p" in
  let Hin := fresh "Hin" in
  intros p Hin; cbn in Hin;
  repeat (destruct Hin as [<-|Hin]; [reflexivity|]); destruct Hin.

Lemma keeps_latest_read_sensors (I : System -> Prop) : keeps I read_sensors.
Proof. intros w Hw. destruct (latest_read_sensors_total w) as [s ->]. exact Hw. Qed.

(** The cycle never drives the status LED. *)
Lemma latest_cycle_frame_status (v : Z) (l : list (gpio * Z)) :
  keeps (pin_frame tt STATUS_LED_PIN v l) update_logic.
Proof.
  unfold update_logic. cbv zeta.
  repeat lazymatch goal with
  | |- keeps _ (try_except _ _) => apply keeps_try_except; [|intros ?]
  | |- keeps _ (bind _ _) => apply keeps_bind; [|intros ?]
  | |- keeps _ read_sensors => apply keeps_latest_read_sensors
  | |- keeps _ (ret _) => apply keeps_ret
  | |- keeps _ (if ?b then _ else _) => apply keeps_if; intros ?
  | |- keeps _ (let '(_, _) := ?x in _) => destruct x
  | |- keeps _ (pin_set _ _) => apply keeps_pin_set_other; discriminate
  end.
Qed.

(** A cycle whose sensor read fails: the relay is not written, and when
    the two LED pins accept writes the cycle gets to its end, with the
    reason of an empty room. *)
Lemma latest_fail_safe_cycle (w : System) (e : string) :
  fst (read_sensors_try w) = Raised e ->
  exists s w',
    update_logic w = (Ok s, w') /\
    (presence s = false /\ storm s = false /\ clouds s = false) /\
    writes_to ANTENNA_PIN (hw w') = writes_to ANTENNA_PIN (hw w) /\
    (fault (hw w) STORM_LED_PIN = None ->
     fault (hw w) CLOUDS_LED_PIN = None ->
     control_reason s = Some "No person detected"%string).
Proof.
  intros Hr. pose proof (latest_read_fail_safe w e Hr) as Hs.
  destruct w as [me h]. cbn [hw] in *.
  unfold update_logic, try_except, bind, pin_set, ret.
  rewrite Hs. cbn [storm clouds presence antenna_connected hw self].
  destruct (fault h STORM_LED_PIN) as [e1|] eqn:H1.
  - rewrite Hs. do 2 eexists. split; [reflexivity|].
    repeat split; discriminate.
  - cbn [hw self fault drive].
    destruct (fault h CLOUDS_LED_PIN) as [e2|] eqn:H2.
    + match goal with |- context [read_sensors ?x] => set (w1 := x) end.
      assert (Hx : fst (read_sensors_try w1) = Raised e).
      { revert Hr. subst w1.
        unfold read_sensors_try, bind, pin_get, ticks_ms, ret.
        cbn [hw fault drive].
        repeat (match goal with
                | |- context [fault h ?p] => destruct (fault h p)
                end; cbn [hw fault drive fst]).
        all: first [intros; discriminate | auto]. }
      rewrite (latest_read_fail_safe w1 e Hx).
      do 2 eexists. split; [reflexivity|].
      split; [now repeat split|]. split; [|discriminate].
      subst w1. unfold writes_to. cbn [writes drive hw]. rewrite filter_app.
      cbn. now rewrite app_nil_r.
    + cbn. do 2 eexists. split; [reflexivity|].
      split; [now repeat split|]. split; [|reflexivity].
      unfold writes_to. cbn [writes drive hw]. rewrite !filter_app. cbn.
      now rewrite !app_nil_r.
Qed.

(** C10, with the status LED set apart: in the enhanced variant without
    the DHT11 a manual command leaves nothing behind but the level it
    wrote.  On a board whose pins work, [control_antenna] and [control_led]
    return after one write on their pin and change nothing else (the object
    has no flag to set); the automatic cycle that follows writes the storm
    LED and the clouds LED from the sensors whatever was commanded, and
    writes the relay from [presence and not storm] exactly when that
    differs from the commanded level, so that after the cycle relay and
    LEDs show the sensors and not the command.  The command for the status
    LED is the exception: the cycle does no write on the status LED, which
    keeps the commanded level. *)
Theorem manual_commands_persist_on_status_led_only
        (w : System) (connect manual state : bool) :
  pins_ok (inputs ++ outputs) (hw w) ->
  let p := truthy (level (hw w) PIR_PIN) in
  let st := truthy (level (hw w) STORM_PIN) in
  let c := truthy (level (hw w) CLOUDS_PIN) in
  let d := p && negb st in
  (exists s w2,
     control_antenna connect manual w =
       (Ok tt, mkWorld (self w)
                       (drive ANTENNA_PIN (if connect then 1 else 0) (hw w))) /\
     update_logic (snd (control_antenna connect manual w)) = (Ok s, w2) /\
     level (hw w2) ANTENNA_PIN = (if d then 1 else 0) /\
     writes_to ANTENNA_PIN (hw w2) =
       writes_to ANTENNA_PIN (hw w) ++
       [(ANTENNA_PIN, if connect then 1 else 0)] ++
       (if bool_ne d connect then [(ANTENNA_PIN, if d then 1 else 0)] else [])) /\
  (exists s w2,
     control_led "storm" state w =
       (Ok tt, mkWorld (self w)
                       (drive STORM_LED_PIN (if state then 1 else 0) (hw w))) /\
     update_logic (snd (control_led "storm" state w)) = (Ok s, w2) /\
     level (hw w2) STORM_LED_PIN = (if st then 1 else 0) /\
     writes_to STORM_LED_PIN (hw w2) =
       writes_to STORM_LED_PIN (hw w) ++
       [(STORM_LED_PIN, if state then 1 else 0);
        (STORM_LED_PIN, if st then 1 else 0)]) /\
  (exists s w2,
     control_led "clouds" state w =
       (Ok tt, mkWorld (self w)
                       (drive CLOUDS_LED_PIN (if state then 1 else 0) (hw w))) /\
     update_logic (snd (control_led "clouds" state w)) = (Ok s, w2) /\
     level (hw w2) CLOUDS_LED_PIN = (if c then 1 else 0) /\
     writes_to CLOUDS_LED_PIN (hw w2) =
       writes_to CLOUDS_LED_PIN (hw w) ++
       [(CLOUDS_LED_PIN, if state then 1 else 0);
        (CLOUDS_LED_PIN, if c then 1 else 0)]) /\
  (fault (hw w) STATUS_LED_PIN = None ->
   exists s w2,
     control_led "status" state w =
       (Ok tt, mkWorld (self w)
                       (drive STATUS_LED_PIN (if state then 1 else 0) (hw w))) /\
     update_logic (snd (control_led "status" state w)) = (Ok s, w2) /\
     level (hw w2) STATUS_LED_PIN = (if state then 1 else 0) /\
     writes_to STATUS_LED_PIN (hw w2) =
       writes_to STATUS_LED_PIN (hw w) ++
       [(STATUS_LED_PIN, if state then 1 else 0)]).
Proof.
  intros Hp p st c d.
  destruct (pins_ok_all _ Hp) as [_ (H4 & H5 & H6)].
  assert (Hc : forall q v, pins_ok (inputs ++ outputs) (drive q v (hw w)))
    by (intros q v x Hx; exact (Hp x Hx)).
  split; [|split; [|split]].
  4: { intros H0.
       assert (E : control_led "status" state w =
                (Ok tt, mkWorld (self w)
                          (drive STATUS_LED_PIN (if state then 1 else 0) (hw w)))).
       { unfold control_led, try_except, pin_set. cbn [String.eqb Ascii.eqb Bool.eqb].
         now rewrite H0. }
       rewrite E. cbn [snd].
       set (w1 := mkWorld (self w)
                    (drive STATUS_LED_PIN (if state then 1 else 0) (hw w))).
       destruct (latest_update_logic_total w1) as (s & w2 & Hu).
       destruct (latest_cycle_frame_status (level (hw w1) STATUS_LED_PIN)
                   (writes_to STATUS_LED_PIN (hw w1)) w1) as (_ & Hl & Hw).
       { repeat split. now destruct (self w1). }
       rewrite Hu in Hl, Hw. cbn [snd] in Hl, Hw.
       exists s, w2. split; [reflexivity|]. split; [exact Hu|].
       rewrite Hl, Hw. subst w1. cbn [hw]. split.
       - cbn. reflexivity.
       - unfold writes_to. cbn [writes drive]. rewrite filter_app. reflexivity. }
  - assert (E : control_antenna connect manual w =
                (Ok tt, mkWorld (self w)
                          (drive ANTENNA_PIN (if connect then 1 else 0) (hw w)))).
    { unfold control_antenna, try_except, pin_set. now rewrite H4. }
    rewrite E. cbn [snd].
    destruct (latest_cycle (mkWorld (self w)
                (drive ANTENNA_PIN (if connect then 1 else 0) (hw w)))
                (Hc _ _)) as (s & Hu & _).
    cbn [hw self drive level] in Hu.
    change (PIR_PIN =? ANTENNA_PIN) with false in Hu. change (STORM_PIN =? ANTENNA_PIN) with false in Hu.
    change (CLOUDS_PIN =? ANTENNA_PIN) with false in Hu. change (ANTENNA_PIN =? ANTENNA_PIN) with true in Hu.
    cbv iota in Hu. fold p st c d in Hu.
    replace (truthy (if connect then 1 else 0)) with connect in Hu
      by now destruct connect.
    do 2 eexists. split; [reflexivity|]. split; [exact Hu|]. cbn [hw].
    destruct d, connect; cbn [bool_ne Bool.eqb negb];
      (split; [reflexivity | count_writes; rewrite <- ?app_assoc; reflexivity]).
  - assert (E : control_led "storm" state w =
                (Ok tt, mkWorld (self w)
                          (drive STORM_LED_PIN (if state then 1 else 0) (hw w)))).
    { unfold control_led, try_except, pin_set. cbn [String.eqb Ascii.eqb].
      cbn. now rewrite H5. }
    rewrite E. cbn [snd].
    destruct (latest_cycle (mkWorld (self w)
                (drive STORM_LED_PIN (if state then 1 else 0) (hw w)))
                (Hc _ _)) as (s & Hu & _).
    cbn [hw self drive level] in Hu.
    change (PIR_PIN =? STORM_LED_PIN) with false in Hu. change (STORM_PIN =? STORM_LED_PIN) with false in Hu.
    change (CLOUDS_PIN =? STORM_LED_PIN) with false in Hu. change (ANTENNA_PIN =? STORM_LED_PIN) with false in Hu.
    cbv iota in Hu. fold p st c d in Hu.
    do 2 eexists. split; [reflexivity|]. split; [exact Hu|]. cbn [hw].
    destruct (bool_ne d (truthy (level (hw w) ANTENNA_PIN)));
      (split; [reflexivity | count_writes; rewrite <- ?app_assoc; reflexivity]).
  - assert (E : control_led "clouds" state w =
                (Ok tt, mkWorld (self w)
                          (drive CLOUDS_LED_PIN (if state then 1 else 0) (hw w)))).
    { unfold control_led, try_except, pin_set. cbn. now rewrite H6. }
    rewrite E. cbn [snd].
    destruct (latest_cycle (mkWorld (self w)
                (drive CLOUDS_LED_PIN (if state then 1 else 0) (hw w)))
                (Hc _ _)) as (s & Hu & _).
    cbn [hw self drive level] in Hu.
    change (PIR_PIN =? CLOUDS_LED_PIN) with false in Hu. change (STORM_PIN =? CLOUDS_LED_PIN) with false in Hu.
    change (CLOUDS_PIN =? CLOUDS_LED_PIN) with false in Hu. change (ANTENNA_PIN =? CLOUDS_LED_PIN) with false in Hu.
    cbv iota in Hu. fold p st c d in Hu.
    do 2 eexists. split; [reflexivity|]. split; [exact Hu|]. cbn [hw].
    destruct (bool_ne d (truthy (level (hw w) ANTENNA_PIN)));
      (split; [reflexivity | count_writes; rewrite <- ?app_assoc; reflexivity]).
Qed.

(** C10 with nobody present: the antenna and the storm LED switched on by
    hand are both off again after one automatic cycle. *)
Lemma manual_commands_persist_on_status_led_only_witness :
  let w : System :=
    mkWorld tt (bench [(PIR_PIN, 0); (STORM_PIN, 0); (CLOUDS_PIN, 0)] []
                      (Measured None None) 0) in
  (exists s w2,
     update_logic (snd (control_antenna true true w)) = (Ok s, w2) /\
     level (hw w2) ANTENNA_PIN = 0 /\
     writes_to ANTENNA_PIN (hw w2) = [(ANTENNA_PIN, 1); (ANTENNA_PIN, 0)]) /\
  (exists s w2,
     update_logic (snd (control_led "storm" true w)) = (Ok s, w2) /\
     level (hw w2) STORM_LED_PIN = 0 /\
     writes_to STORM_LED_PIN (hw w2) = [(STORM_LED_PIN, 1); (STORM_LED_PIN, 0)]).
Proof.
  intros w.
  assert (Hok : pins_ok (inputs ++ outputs) (hw w)) by bench_ok.
  destruct (manual_commands_persist_on_status_led_only w true true true Hok)
    as ((s & w2 & _ & Hu & Hl & Hw) & (s' & w2' & _ & Hu' & Hl' & Hw') & _).
  split.
  - exists s, w2. split; [exact Hu|]. split; [exact Hl | exact Hw].
  - exists s', w2'. split; [exact Hu'|]. split; [exact Hl' | exact Hw'].
Defined.

(** C10 as stated fails for the status LED: on a board whose pins work and
    with nobody present, [control_led] with ['status'] switches the LED on
    and the automatic cycle that follows leaves it on, without a write on
    its pin. *)
Lemma status_led_command_survives_cycle :
  let w : System :=
    mkWorld tt (bench [(PIR_PIN, 0); (STORM_PIN, 0); (CLOUDS_PIN, 0)] []
                      (Measured None None) 0) in
  let w1 := snd (control_led "status" true w) in
  level (hw w) STATUS_LED_PIN = 0 /\
  level (hw w1) STATUS_LED_PIN = 1 /\
  exists s w2,
    update_logic w1 = (Ok s, w2) /\
    level (hw w2) STATUS_LED_PIN = 1 /\
    writes_to STATUS_LED_PIN (hw w2) = [(STATUS_LED_PIN, 1)].
Proof.
  intros w w1. split; [reflexivity|]. split; [reflexivity|].
  do 2 eexists. split; [reflexivity|]. split; reflexivity.
Qed.

End LatestFacts.

(** ** Across the variants *)

(** C2: which reason wins under a storm with nobody present.  The antenna
    chain of [update_logic] tests [not presence] before [storm], in main.py
    and in renesans_latest.py alike: with presence false and storm true the
    reason is the no-person one, not the storm one.  On the bench, with the
    antenna automatic, the presence pin low and the storm pin high, the
    cycle of main.py reports "No person detected". *)
Theorem absence_reason_shadows_storm_reason :
  (forall (c : bool) (ws : string),
     Main.antenna_rule false true c ws = (false, "No person detected"%string)) /\
  (forall c : bool,
     Latest.antenna_rule false true c = (false, "No person detected"%string)) /\
  (forall (c : bool) (ws : string),
     Main.antenna_rule true true c ws
     = (false, "Storm detected - safety first!"%string)) /\
  let w := Main.demo Main.no_override 0 1 1 [] (Measured (Some 20) (Some 50)) in
  exists s w',
    Main.update_logic w = (Ok s, w') /\
    Main.presence s = false /\ Main.storm s = true /\
    Main.on_air s = Some false /\
    Main.control_reason s = Some "No person detected"%string.
Proof.
  repeat split.
  do 2 eexists. split; [reflexivity|]. repeat split.
Qed.

(** C9: write-on-change for the relay, a write per cycle for the LEDs.  In
    main.py, on a board whose pins work and with the antenna not overridden,
    a cycle writes the relay exactly when the target [presence and not
    storm] differs from the relay level read at the start of the cycle (one
    write, to the target) and not at all otherwise, while it writes each LED
    whose flag is clear once, to its designated value; a second cycle with
    the sensors unchanged does no write on the relay.  The template's cycle
    treats the relay the same way, and its second cycle writes nothing. *)
Theorem relay_written_on_change_leds_every_cycle
        (w : Main.System) (wt : Template.System) :
  Main.antenna (Main.manual_override (self w)) = false ->
  pins_ok (Main.inputs ++ Main.outputs) (hw w) ->
  pins_ok Template.pins (hw wt) ->
  (let d := truthy (level (hw w) Main.PIR_PIN)
            && negb (truthy (level (hw w) Main.STORM_PIN)) in
   let back := truthy (level (hw w) Main.ANTENNA_PIN) in
   exists s w',
     Main.update_logic w = (Ok s, w') /\
     Main.on_air s = Some d /\
     writes_to Main.ANTENNA_PIN (hw w') =
       writes_to Main.ANTENNA_PIN (hw w) ++
       (if bool_ne d back
        then [(Main.ANTENNA_PIN, if d then 1 else 0)] else []) /\
     (Main.storm_led (Main.manual_override (self w)) = false ->
      writes_to Main.LED1_PIN (hw w') =
        writes_to Main.LED1_PIN (hw w) ++
        [(Main.LED1_PIN,
          if truthy (level (hw w) Main.STORM_PIN) then 0 else 1)]) /\
     (Main.clouds_led (Main.manual_override (self w)) = false ->
      writes_to Main.LED2_PIN (hw w') =
        writes_to Main.LED2_PIN (hw w) ++
        [(Main.LED2_PIN, if Main.clouds s then 0 else 1)]) /\
     (Main.on_air_led (Main.manual_override (self w)) = false ->
      writes_to Main.LED3_PIN (hw w') =
        writes_to Main.LED3_PIN (hw w) ++
        [(Main.LED3_PIN, if d then 0 else 1)]) /\
     exists s2 w2,
       Main.update_logic w' = (Ok s2, w2) /\
       Main.on_air s2 = Some d /\
       writes_to Main.ANTENNA_PIN (hw w2) = writes_to Main.ANTENNA_PIN (hw w')) /\
  (let d := truthy (level (hw wt) Template.PIR_PIN)
            && negb (truthy (level (hw wt) Template.STORM_PIN)) in
   let back := truthy (level (hw wt) Template.ANTENNA_PIN) in
   exists s w',
     Template.update_logic wt = (Ok s, w') /\
     writes (hw w') =
       writes (hw wt) ++
       (if bool_ne d back
        then [(Template.ANTENNA_PIN, if d then 1 else 0)] else []) /\
     exists s2 w2,
       Template.update_logic w' = (Ok s2, w2) /\ writes (hw w2) = writes (hw w')).
Proof.
  intros Ha Hp Ht. split.
  - exact (MainFacts.main_write_on_change w Ha Hp).
  - exact (TemplateFacts.template_write_on_change wt Ht).
Qed.

(** C9 on the bench: a person arrives while the relay is off.  The first
    cycle writes the relay on and all three LEDs; the next one leaves the
    relay alone. *)
Lemma relay_written_on_change_leds_every_cycle_witness :
  let w := Main.demo Main.no_override 1 0 0 [] (Measured (Some 20) (Some 50)) in
  let wt : Template.System :=
    mkWorld tt (bench [(Template.PIR_PIN, 1)] [] (Measured None None) 0) in
  (exists s w' s2 w2,
     Main.update_logic w = (Ok s, w') /\
     writes_to Main.ANTENNA_PIN (hw w') = [(Main.ANTENNA_PIN, 1)] /\
     writes_to Main.LED1_PIN (hw w') = [(Main.LED1_PIN, 1)] /\
     writes_to Main.LED3_PIN (hw w') = [(Main.LED3_PIN, 0)] /\
     Main.update_logic w' = (Ok s2, w2) /\
     writes_to Main.ANTENNA_PIN (hw w2) = [(Main.ANTENNA_PIN, 1)]) /\
  (exists s w' s2 w2,
     Template.update_logic wt = (Ok s, w') /\
     writes (hw w') = [(Template.ANTENNA_PIN, 1)] /\
     Template.update_logic w' = (Ok s2, w2) /\
     writes (hw w2) = [(Template.ANTENNA_PIN, 1)]).
Proof.
  intros w wt.
  assert (Hp : pins_ok (Main.inputs ++ Main.outputs) (hw w))
    by LatestFacts.bench_ok.
  assert (Ht : pins_ok Template.pins (hw wt)) by LatestFacts.bench_ok.
  destruct (relay_written_on_change_leds_every_cycle w wt eq_refl Hp Ht)
    as [(s & w' & Hu & _ & Hwa & H1 & _ & H3 & s2 & w2 & Hu2 & _ & Hw2)
        (st & wt' & Htu & Htw & st2 & wt2 & Htu2 & Htw2)].
  split.
  - exists s, w', s2, w2. split; [exact Hu|]. split; [exact Hwa|].
    split; [exact (H1 eq_refl)|]. split; [exact (H3 eq_refl)|].
    split; [exact Hu2|]. rewrite Hw2. exact Hwa.
  - exists st, wt', st2, wt2. split; [exact Htu|]. split; [exact Htw|].
    split; [exact Htu2|]. rewrite Htw2. exact Htw.
Defined.

(** C5: a sensor read that raises, in main.py and in renesans_latest.py.
    Whenever the [try] body of [read_sensors] raises (any exception, on
    any of its pin reads), [read_sensors] returns the fail-safe dict:
    presence, storm and clouds false, and in main.py temperature and
    humidity absent.  On this dict the antenna chain gives the target off
    with the reason of an empty room.  The cycle run on it returns a dict
    with these values, never with the decision to connect, and does no
    write on the relay; when the LED pins accept their writes the cycle
    gets to its end and returns the decision: in main.py [on_air] is
    False, with the reason "No person detected", or "Manual override
    active" under an antenna override; in renesans_latest.py the reason is
    "No person detected".  And on every board, broken pins or not,
    [read_sensors] and [update_logic] of both files return a dict and
    never raise. *)
Theorem sensor_fault_is_fail_safe
        (w : Main.System) (wl : Latest.System) (e el : string) :
  fst (Main.read_sensors_try w) = Raised e ->
  fst (Latest.read_sensors_try wl) = Raised el ->
  (let fs := Main.fail_safe (ticks (hw w)) in
   Main.read_sensors w = (Ok fs, w) /\
   (Main.presence fs = false /\ Main.storm fs = false /\
    Main.clouds fs = false /\ Main.temperature fs = None /\
    Main.humidity fs = None) /\
   Main.antenna_rule (Main.presence fs) (Main.storm fs) (Main.clouds fs)
                     (Main.weather_status fs)
   = (false, "No person detected"%string) /\
   exists s w',
     Main.update_logic w = (Ok s, w') /\
     (Main.presence s = false /\ Main.storm s = false /\
      Main.clouds s = false /\ Main.temperature s = None /\
      Main.humidity s = None) /\
     Main.on_air s <> Some true /\
     writes_to Main.ANTENNA_PIN (hw w') = writes_to Main.ANTENNA_PIN (hw w) /\
     (fault (hw w) Main.LED1_PIN = None ->
      fault (hw w) Main.LED2_PIN = None ->
      fault (hw w) Main.LED3_PIN = None ->
      Main.on_air s = Some false /\
      Main.control_reason s =
        Some (if Main.antenna (Main.manual_override (self w))
              then "Manual override active"%string
              else "No person detected"%string))) /\
  (let fs := Latest.mkSensors false false false false (ticks (hw wl)) None in
   Latest.read_sensors wl = (Ok fs, wl) /\
   Latest.antenna_rule (Latest.presence fs) (Latest.storm fs) (Latest.clouds fs)
   = (false, "No person detected"%string) /\
   exists s w',
     Latest.update_logic wl = (Ok s, w') /\
     (Latest.presence s = false /\ Latest.storm s = false /\
      Latest.clouds s = false) /\
     writes_to Latest.ANTENNA_PIN (hw w') = writes_to Latest.ANTENNA_PIN (hw wl) /\
     (fault (hw wl) Latest.STORM_LED_PIN = None ->
      fault (hw wl) Latest.CLOUDS_LED_PIN = None ->
      Latest.control_reason s = Some "No person detected"%string)) /\
  (forall w0 : Main.System, exists s, Main.read_sensors w0 = (Ok s, w0)) /\
  (forall w0 : Main.System, exists s w', Main.update_logic w0 = (Ok s, w')) /\
  (forall w0 : Latest.System, exists s, Latest.read_sensors w0 = (Ok s, w0)) /\
  (forall w0 : Latest.System, exists s w', Latest.update_logic w0 = (Ok s, w')).
Proof.
  intros Hr Hrl. apply MainFacts.read_sensors_try_raises in Hr.
  split; [|split; [|split; [|split; [|split]]]].
  - cbv zeta. split; [exact (MainFacts.read_sensors_fail_safe w e Hr)|].
    split; [now repeat split|]. split; [reflexivity|].
    exact (MainFacts.fail_safe_cycle_decision w e Hr).
  - cbv zeta. split; [exact (LatestFacts.latest_read_fail_safe wl el Hrl)|].
    split; [reflexivity|].
    exact (LatestFacts.latest_fail_safe_cycle wl el Hrl).
  - exact MainFacts.read_sensors_total.
  - exact MainFacts.update_logic_total.
  - exact LatestFacts.latest_read_sensors_total.
  - exact LatestFacts.latest_update_logic_total.
Qed.

(** C5 with the presence pin broken while a person stands there and the
    relay is on, in both files: the cycle returns the decision off. *)
Lemma sensor_fault_is_fail_safe_witness :
  let w := Main.demo Main.no_override 1 0 1 [Main.PIR_PIN]
                     (Measured (Some 20) (Some 50)) in
  let wl : Latest.System :=
    mkWorld tt (bench [(Latest.PIR_PIN, 1); (Latest.ANTENNA_PIN, 1)]
                      [Latest.PIR_PIN] (Measured None None) 0) in
  (exists s w',
     Main.update_logic w = (Ok s, w') /\ Main.on_air s = Some false /\
     Main.control_reason s = Some "No person detected"%string) /\
  (exists s w',
     Latest.update_logic wl = (Ok s, w') /\
     Latest.control_reason s = Some "No person detected"%string).
Proof.
  intros w wl.
  destruct (sensor_fault_is_fail_safe w wl "OSError"%string "OSError"%string
              eq_refl eq_refl)
    as ((_ & _ & _ & s & w' & Hu & _ & _ & _ & Hd) &
        (_ & _ & sl & wl' & Hul & _ & _ & Hdl) & _).
  split.
  - exists s, w'. split; [exact Hu|]. exact (Hd eq_refl eq_refl eq_refl).
  - exists sl, wl'. split; [exact Hul|]. exact (Hdl eq_refl eq_refl).
Defined.

(** ** More of main.py *)

Module MainMore.
Import Main MainFacts.

(** *** The DHT11 read *)

(** The outcomes of [read_dht11]. *)
Lemma read_dht11_cases (w : System) :
  exists t h status,
    read_dht11 w = (Ok (t, h, status), w) /\
    ((t = None /\ h = None /\ status <> "OK"%string) \/
     (exists tv hv,
        t = Some tv /\ h = Some hv /\ status = "OK"%string /\
        -40 <= tv <= 80 /\ 0 <= hv <= 100 /\
        dht11_sensor (self w) = true /\
        dht (hw w) = Measured (Some tv) (Some hv))).
Proof.
  unfold read_dht11, try_except, bind, get_self, dht_measure, ret.
  destruct (dht11_sensor (self w)) eqn:Hd; cbn [negb].
  2: { do 3 eexists. split; [reflexivity|]. left. repeat split. discriminate. }
  destruct (dht (hw w)) as [e|[tv|] [hv|]] eqn:Hm.
  - do 3 eexists. split; [reflexivity|]. left. repeat split. discriminate.
  - destruct ((-40 <=? tv) && (tv <=? 80) && ((0 <=? hv) && (hv <=? 100)))
      eqn:Hr.
    + do 3 eexists. split; [reflexivity|]. right. exists tv, hv.
      apply andb_prop in Hr. destruct Hr as [Ht Hh].
      apply andb_prop in Ht. apply andb_prop in Hh.
      destruct Ht as [Ht1 Ht2], Hh as [Hh1 Hh2].
      apply Z.leb_le in Ht1, Ht2, Hh1, Hh2. repeat split; auto.
    + do 3 eexists. split; [reflexivity|]. left. repeat split. discriminate.
  - do 3 eexists. split; [reflexivity|]. left. repeat split. discriminate.
  - do 3 eexists. split; [reflexivity|]. left. repeat split. discriminate.
  - do 3 eexists. split; [reflexivity|]. left. repeat split. discriminate.
Qed.

(** X1: [read_dht11] returns normally and touches nothing, whatever the
    DHT11 does; it returns a reading only with status "OK", and then both
    values are present, are the ones measured, and lie in -40..80 and
    0..100; with any other outcome both values are absent and the status
    is not "OK". *)
Theorem read_dht11_valid_or_absent (w : System) :
  exists t h status,
    read_dht11 w = (Ok (t, h, status), w) /\
    ((t = None /\ h = None /\ status <> "OK"%string) \/
     (exists tv hv,
        t = Some tv /\ h = Some hv /\ status = "OK"%string /\
        -40 <= tv <= 80 /\ 0 <= hv <= 100 /\
        dht11_sensor (self w) = true /\
        dht (hw w) = Measured (Some tv) (Some hv))).
Proof. exact (read_dht11_cases w). Qed.

(** X2: the dict of [read_sensors], on any board.  Temperature and humidity
    are both present or both absent, and in range when present; the clouds
    flag is set only by a reading in range that breaks a threshold, so a
    DHT11 that is missing, raises or reads out of range never shows as poor
    weather; and the three keys of [update_logic] are not in the dict yet. *)
Theorem read_sensors_dict_invariant (w : System) :
  exists s,
    read_sensors w = (Ok s, w) /\
    (temperature s = None <-> humidity s = None) /\
    (forall tv, temperature s = Some tv -> -40 <= tv <= 80) /\
    (forall hv, humidity s = Some hv -> 0 <= hv <= 100) /\
    (clouds s = true ->
     exists tv hv,
       temperature s = Some tv /\ humidity s = Some hv /\
       (humidity_threshold (self w) < hv \/ tv < temp_min (self w)
        \/ temp_max (self w) < tv)) /\
    control_reason s = None /\ on_air s = None /\ manual_overrides s = None.
Proof.
  unfold read_sensors, read_sensors_try, try_except, bind, pin_get, ticks_ms,
    ret.
  destruct (fault (hw w) PIR_PIN);
    [eexists; split; [reflexivity|]; cbn; repeat split; discriminate|].
  destruct (fault (hw w) STORM_PIN);
    [eexists; split; [reflexivity|]; cbn; repeat split; discriminate|].
  destruct (fault (hw w) ANTENNA_PIN);
    [eexists; split; [reflexivity|]; cbn; repeat split; discriminate|].
  destruct (read_dht11_cases w)
    as (t & h & st & -> & [(-> & -> & _) | (tv & hv & -> & -> & _ & Ht & Hh & _)]).
  - unfold get_self, weather. eexists. split; [reflexivity|].
    cbn. repeat split; discriminate.
  - unfold get_self, weather.
    destruct (Z.gtb_spec hv (humidity_threshold (self w)));
      [|destruct (Z.ltb_spec tv (temp_min (self w)));
        [|destruct (Z.gtb_spec tv (temp_max (self w)))]].
    all: eexists; split; [reflexivity|]; cbn.
    all: repeat split; try discriminate.
    all: try match goal with
             | H : Some _ = Some _ |- _ => injection H as <-; lia
             end.
    all: intros _; exists tv, hv; repeat split; auto.
Qed.

(** *** Manual commands *)

Lemma control_led_runs (c : channel) (name : string) (state : bool)
        (w : System) :
  In name (led_names c) ->
  fault (hw w) (pin_of c) = None ->
  control_led name state w =
    (Ok tt,
     mkWorld (with_overrides (set_flag c (manual_override (self w))) (self w))
             (drive (pin_of c) (if state then 0 else 1) (hw w))).
Proof.
  intros Hin Hf. destruct w as [me h]. cbn [hw self] in *.
  destruct c; cbn in Hin; cbn [pin_of] in Hf;
    repeat (destruct Hin as [<-|Hin]; [|]); try contradiction;
    unfold control_led, set_manual_override, try_except, bind, pin_set,
      get_self, set_self, ret;
    cbn [String.eqb Ascii.eqb Bool.eqb orb hw self];
    rewrite Hf; reflexivity.
Qed.

(** X3: a manual LED command that goes through.  Under either of its two
    names for a channel, with the channel's pin accepting the write,
    [control_led] does one write on that pin (low for on, high for off),
    sets the flag of that channel and only that one, and changes nothing
    else. *)
Theorem control_led_effect (c : channel) (name : string) (state : bool)
        (w : System) :
  In name (led_names c) ->
  fault (hw w) (pin_of c) = None ->
  control_led name state w =
    (Ok tt,
     mkWorld (with_overrides (set_flag c (manual_override (self w))) (self w))
             (drive (pin_of c) (if state then 0 else 1) (hw w))).
Proof. exact (control_led_runs c name state w). Qed.

Lemma control_led_effect_witness :
  let w := demo no_override 0 0 0 [] (Measured None None) in
  exists w',
    control_led "led2" true w = (Ok tt, w') /\
    writes (hw w') = [(LED2_PIN, 0)] /\
    manual_override (self w') = mkOverrides false true false false.
Proof.
  intros w. eexists. split.
  - apply (control_led_effect CloudsLed "led2" true w); [cbn; auto | reflexivity].
  - split; reflexivity.
Defined.

(** X4: a manual LED command that does not go through.  With a name that
    is none of the six known ones, or with the pin of the named channel
    raising on the write, [control_led] returns normally and leaves the
    board and the flags exactly as they were: a failed write does not mark
    the channel as overridden. *)
Theorem control_led_without_effect (name : string) (state : bool) (w : System) :
  (forall c, ~ In name (led_names c)) \/
  (exists c e, In name (led_names c) /\ fault (hw w) (pin_of c) = Some e) ->
  control_led name state w = (Ok tt, w).
Proof.
  intros [Hn | (c & e & Hin & Hf)].
  - unfold control_led, try_except.
    assert (H1 := Hn StormLed). assert (H2 := Hn CloudsLed).
    assert (H3 := Hn OnAirLed). cbn in H1, H2, H3.
    repeat match goal with
    | |- context [String.eqb name ?x] =>
        destruct (String.eqb_spec name x); [exfalso; intuition|]
    end.
    reflexivity.
  - destruct w as [me h]. cbn [hw self] in *.
    destruct c; cbn in Hin; cbn [pin_of] in Hf;
      repeat (destruct Hin as [<-|Hin]; [|]); try contradiction;
      unfold control_led, set_manual_override, try_except, bind, pin_set,
        get_self, set_self, ret;
      cbn [String.eqb Ascii.eqb Bool.eqb orb hw self];
      rewrite Hf; reflexivity.
Qed.

Lemma control_led_without_effect_witness :
  let w := demo no_override 0 0 0 [LED1_PIN] (Measured None None) in
  control_led "status" true w = (Ok tt, w) /\
  control_led "storm" true w = (Ok tt, w).
Proof.
  intros w. split.
  - apply control_led_without_effect. left.
    intros [] H; cbn in H; intuition discriminate.
  - apply control_led_without_effect. right.
    exists StormLed, "OSError"%string. split; [cbn; auto | reflexivity].
Defined.

(** X5: the manual antenna command when a write fails, or when it is not
    manual.  If the relay pin raises, [control_antenna] returns normally
    with nothing written and no flag set.  If the relay accepts the write
    and the on-air LED pin raises, the relay is written and both the antenna
    flag and the on-air LED flag are set, the LED itself unwritten.  With
    [manual=False] the relay is written and no flag is set. *)
Theorem control_antenna_partial (connect : bool) (w : System) :
  (forall manual e,
     fault (hw w) ANTENNA_PIN = Some e ->
     control_antenna connect manual w = (Ok tt, w)) /\
  (forall e,
     fault (hw w) ANTENNA_PIN = None ->
     fault (hw w) LED3_PIN = Some e ->
     control_antenna connect true w =
       (Ok tt,
        mkWorld (with_overrides
                   (set_flag OnAirLed
                      (set_flag Antenna (manual_override (self w))))
                   (self w))
                (drive ANTENNA_PIN (if connect then 1 else 0) (hw w)))) /\
  (fault (hw w) ANTENNA_PIN = None ->
   control_antenna connect false w =
     (Ok tt, mkWorld (self w)
                     (drive ANTENNA_PIN (if connect then 1 else 0) (hw w)))).
Proof.
  destruct w as [me h]. cbn [hw self].
  unfold control_antenna, set_manual_override, try_except, bind, pin_set,
    get_self, set_self, ret.
  cbn [hw self fault drive]. repeat split.
  - intros manual e ->. reflexivity.
  - intros e -> Hl. cbn [hw self fault drive]. rewrite Hl. reflexivity.
  - intros ->. reflexivity.
Qed.

Lemma control_antenna_partial_witness :
  let w := demo no_override 0 0 0 [LED3_PIN] (Measured None None) in
  exists w',
    control_antenna true true w = (Ok tt, w') /\
    writes (hw w') = [(ANTENNA_PIN, 1)] /\
    manual_override (self w') = mkOverrides false false true true.
Proof.
  intros w. eexists. split.
  - apply (control_antenna_partial true w) with (e := "OSError"%string);
      reflexivity.
  - split; reflexivity.
Defined.

(** *** Manual commands and the cycles that follow *)

Lemma control_antenna_runs (connect : bool) (w : System) :
  fault (hw w) ANTENNA_PIN = None ->
  fault (hw w) LED3_PIN = None ->
  control_antenna connect true w =
    (Ok tt,
     mkWorld (with_overrides
                (set_flag OnAirLed (set_flag Antenna (manual_override (self w))))
                (self w))
             (drive LED3_PIN (if connect then 0 else 1)
                (drive ANTENNA_PIN (if connect then 1 else 0) (hw w)))).
Proof.
  intros Ha Hl. destruct w as [me h]. cbn [hw self] in *.
  unfold control_antenna, set_manual_override, try_except, bind, pin_set,
    get_self, set_self, ret.
  cbn [hw self fault drive]. rewrite Ha. cbn [hw self fault drive].
  rewrite Hl. reflexivity.
Qed.

(** X6: a manual antenna command persists.  Once [control_antenna] has
    gone through, any run of automatic cycles, whatever the sensors read
    before each of them (a storm included) and whichever pins fail, leaves
    the relay and the on-air LED at the commanded levels, does no further
    write on either, and keeps both flags set. *)
Theorem manual_antenna_persists (connect : bool) (w : System) (es : list Env) :
  fault (hw w) ANTENNA_PIN = None ->
  fault (hw w) LED3_PIN = None ->
  let w2 := auto_cycles es (snd (control_antenna connect true w)) in
  level (hw w2) ANTENNA_PIN = (if connect then 1 else 0) /\
  level (hw w2) LED3_PIN = (if connect then 0 else 1) /\
  writes_to ANTENNA_PIN (hw w2) =
    writes_to ANTENNA_PIN (hw w) ++ [(ANTENNA_PIN, if connect then 1 else 0)] /\
  writes_to LED3_PIN (hw w2) =
    writes_to LED3_PIN (hw w) ++ [(LED3_PIN, if connect then 0 else 1)] /\
  antenna (manual_override (self w2)) = true /\
  on_air_led (manual_override (self w2)) = true.
Proof.
  intros Ha Hl. rewrite (control_antenna_runs connect w Ha Hl). cbn [snd].
  match goal with |- context [auto_cycles es ?x] => set (w1 := x) end.
  destruct (auto_cycles_frame Antenna es w1 eq_refl) as (Hs & Hla & Hwa).
  destruct (auto_cycles_frame OnAirLed es w1 eq_refl) as (_ & Hll & Hwl).
  cbv zeta. cbn [pin_of] in *. rewrite Hs, Hla, Hwa, Hll, Hwl.
  subst w1. cbn [hw self].
  repeat split; try count_writes; reflexivity.
Qed.

Lemma manual_antenna_persists_witness :
  let w := demo no_override 1 0 0 [] (Measured (Some 20) (Some 50)) in
  let storm_comes :=
    mkEnv 1 1 (Measured (Some 20) (Some 50)) 2000 (fun _ => None) in
  let w2 := auto_cycles [storm_comes; storm_comes]
                        (snd (control_antenna true true w)) in
  level (hw w2) ANTENNA_PIN = 1 /\
  writes_to ANTENNA_PIN (hw w2) = [(ANTENNA_PIN, 1)].
Proof.
  intros w storm_comes w2.
  destruct (manual_antenna_persists true w [storm_comes; storm_comes]
              eq_refl eq_refl) as (Hl & _ & Hw & _).
  split; [exact Hl | exact Hw].
Defined.

(** X7: a manual LED command persists.  Once [control_led] has gone
    through for a channel, any run of automatic cycles leaves that LED at
    the commanded level, does no further write on it, and keeps its flag
    set. *)
Theorem manual_led_persists (c : channel) (name : string) (state : bool)
        (w : System) (es : list Env) :
  In name (led_names c) ->
  fault (hw w) (pin_of c) = None ->
  let w2 := auto_cycles es (snd (control_led name state w)) in
  level (hw w2) (pin_of c) = (if state then 0 else 1) /\
  writes_to (pin_of c) (hw w2) =
    writes_to (pin_of c) (hw w) ++ [(pin_of c, if state then 0 else 1)] /\
  flag c (manual_override (self w2)) = true.
Proof.
  intros Hin Hf. rewrite (control_led_runs c name state w Hin Hf). cbn [snd].
  match goal with |- context [auto_cycles es ?x] => set (w1 := x) end.
  assert (Hfl : flag c (manual_override (self w1)) = true)
    by (subst w1; destruct c; reflexivity).
  destruct (auto_cycles_frame c es w1 Hfl) as (Hs & Hl & Hw).
  cbv zeta. rewrite Hs, Hl, Hw. subst w1. cbn [hw self].
  split; [|split; [|exact Hfl]].
  - cbn [drive level]. now rewrite Z.eqb_refl.
  - unfold writes_to. cbn [drive writes]. rewrite filter_app. cbn.
    now rewrite Z.eqb_refl.
Qed.

Lemma manual_led_persists_witness :
  let w := demo no_override 0 0 0 [] (Measured (Some 20) (Some 50)) in
  let calm := mkEnv 0 0 (Measured (Some 20) (Some 50)) 2000 (fun _ => None) in
  let w2 := auto_cycles [calm] (snd (control_led "storm" true w)) in
  level (hw w2) LED1_PIN = 0 /\
  storm_led (manual_override (self w2)) = true.
Proof.
  intros w calm w2.
  destruct (manual_led_persists StormLed "storm" true w [calm])
    as (Hl & _ & Hf); [cbn; auto | reflexivity |].
  split; [exact Hl | exact Hf].
Defined.

(** *** Reset, then a cycle *)

(** A cycle with no channel overridden, on a board whose output pins work:
    the board it leaves. *)
Lemma cycle_all_automatic (w : System) (s : Sensors) :
  pins_ok outputs (hw w) ->
  read_sensors w = (Ok s, w) ->
  manual_override (self w) = no_override ->
  let d := presence s && negb (storm s) in
  let h2 := drive LED2_PIN (if clouds s then 0 else 1)
              (drive LED1_PIN (if storm s then 0 else 1) (hw w)) in
  exists s',
    update_logic w =
      (Ok s',
       mkWorld (self w)
               (drive LED3_PIN (if d then 0 else 1)
                  (if bool_ne d (antenna_connected s)
                   then drive ANTENNA_PIN (if d then 1 else 0) h2
                   else h2))) /\
    on_air s' = Some d /\ clouds s' = clouds s.
Proof.
  intros Hout Hs Hno. apply outputs_ok in Hout.
  destruct Hout as (H1 & H2 & H3 & H4).
  destruct w as [[dh ht tmn tmx [o1 o2 o3 o4]] h].
  cbn [self hw manual_override] in *. injection Hno as -> -> -> ->.
  destruct s as [p st c ac t hu ws ds ts cr oa mo].
  cbn [presence storm clouds antenna_connected].
  run_cycle.
  all: eexists; split; [reflexivity|]; split; reflexivity.
Qed.

(** X8: after a reset, the next cycle re-derives every output.  On a board
    whose pins work, whatever the flags and the output levels were,
    [reset_manual_overrides] followed by [update_logic] leaves the relay
    connected exactly when a person is present and no storm is on, the
    storm LED on (low) exactly under a storm, the clouds LED on exactly in
    poor weather, the on-air LED on exactly when the relay is, and every
    flag clear. *)
Theorem reset_then_cycle_rederives (w : System) :
  pins_ok (inputs ++ outputs) (hw w) ->
  let d := truthy (level (hw w) PIR_PIN)
           && negb (truthy (level (hw w) STORM_PIN)) in
  exists s w2,
    update_logic (snd (reset_manual_overrides w)) = (Ok s, w2) /\
    on_air s = Some d /\
    truthy (level (hw w2) ANTENNA_PIN) = d /\
    level (hw w2) LED1_PIN
      = (if truthy (level (hw w) STORM_PIN) then 0 else 1) /\
    level (hw w2) LED2_PIN = (if clouds s then 0 else 1) /\
    level (hw w2) LED3_PIN = (if d then 0 else 1) /\
    manual_override (self w2) = no_override.
Proof.
  intros Hp d.
  set (w1 := snd (reset_manual_overrides w)).
  assert (Hh : hw w1 = hw w) by reflexivity.
  assert (Hin : pins_ok [PIR_PIN; STORM_PIN; ANTENNA_PIN] (hw w1)).
  { intros p Hp'. rewrite Hh. apply Hp. cbn in *. intuition. }
  assert (Hout : pins_ok outputs (hw w1)).
  { intros p Hp'. rewrite Hh. apply Hp. cbn in *. intuition. }
  destruct (read_sensors_levels w1 Hin) as (s0 & Hs & Hp0 & Hst0 & Hb0).
  destruct (cycle_all_automatic w1 s0 Hout Hs eq_refl) as (s & Hu & Ho & Hc).
  cbv zeta in Hu, Ho. rewrite Hp0, Hst0, Hb0, Hh in *. fold d in Hu, Ho.
  do 2 eexists. split; [exact Hu|]. split; [exact Ho|].
  cbn [hw self]. rewrite Hc.
  destruct (bool_ne d (truthy (level (hw w) ANTENNA_PIN))) eqn:E;
    cbn [drive level]; repeat split.
  - cbn. apply truthy_level.
  - cbn. destruct d, (truthy (level (hw w) ANTENNA_PIN));
      try discriminate; reflexivity.
Qed.

Lemma reset_then_cycle_rederives_witness :
  let w := demo (mkOverrides true true true true) 0 1 1 []
                (Measured (Some 20) (Some 50)) in
  exists s w2,
    update_logic (snd (reset_manual_overrides w)) = (Ok s, w2) /\
    truthy (level (hw w2) ANTENNA_PIN) = false /\
    level (hw w2) LED1_PIN = 0.
Proof.
  intros w.
  assert (Hok : pins_ok (inputs ++ outputs) (hw w)) by bench_ok.
  destruct (reset_then_cycle_rederives w Hok)
    as (s & w2 & Hu & _ & Ha & Hl & _).
  exists s, w2. split; [exact Hu|]. split; [exact Ha | exact Hl].
Defined.

(** *** The output tests *)

Ltac decide_names :=
  repeat match goal with
  | |- context [py_in ?a ?b] =>
      let v := eval vm_compute in (py_in a b) in
      change (py_in a b) with v
  end.

Ltac run_writes :=
  repeat first
    [ progress cbn [hw self fault drive fst snd for_each repeat_times]
    | progress cbv beta iota
    | match goal with
      | H : fault ?h ?p = None |- context [fault ?h ?p] => rewrite H
      end ].

Lemma test_all_outputs_runs (w : System) :
  pins_ok outputs (hw w) ->
  test_all_outputs w =
    (Ok tt,
     mkWorld (self w)
       (drive ANTENNA_PIN 0 (drive ANTENNA_PIN 1
        (drive LED3_PIN 1 (drive LED3_PIN 0
         (drive LED2_PIN 1 (drive LED2_PIN 0
          (drive LED1_PIN 1 (drive LED1_PIN 0 (hw w)))))))))).
Proof.
  intros Hout. apply outputs_ok in Hout. destruct Hout as (H1 & H2 & H3 & H4).
  destruct w as [me h]. cbn [hw self] in *.
  unfold test_all_outputs. cbn [for_each]. decide_names.
  unfold bind, pin_set, ret. run_writes. reflexivity.
Qed.

(** X9: the output test on a working board.  [test_all_outputs] looks at no
    flag and assigns none: it switches each LED on then off and the relay
    on then off, eight writes in this order, and leaves all four outputs
    off (LEDs high, relay low), overridden or not. *)
Theorem test_all_outputs_effect (w : System) :
  pins_ok outputs (hw w) ->
  exists w',
    test_all_outputs w = (Ok tt, w') /\
    self w' = self w /\
    writes (hw w') =
      writes (hw w) ++
      [(LED1_PIN, 0); (LED1_PIN, 1); (LED2_PIN, 0); (LED2_PIN, 1);
       (LED3_PIN, 0); (LED3_PIN, 1); (ANTENNA_PIN, 1); (ANTENNA_PIN, 0)] /\
    level (hw w') LED1_PIN = 1 /\ level (hw w') LED2_PIN = 1 /\
    level (hw w') LED3_PIN = 1 /\ level (hw w') ANTENNA_PIN = 0.
Proof.
  intros Hout. rewrite (test_all_outputs_runs w Hout).
  eexists. split; [reflexivity|]. cbn [hw self drive writes].
  repeat rewrite <- app_assoc. repeat split.
Qed.

Lemma test_all_outputs_effect_witness :
  let w := demo (mkOverrides true false false true) 0 0 1 []
                (Measured None None) in
  exists w',
    test_all_outputs w = (Ok tt, w') /\
    level (hw w') ANTENNA_PIN = 0 /\
    manual_override (self w') = mkOverrides true false false true.
Proof.
  intros w.
  assert (Hok : pins_ok outputs (hw w)) by bench_ok.
  destruct (test_all_outputs_effect w Hok)
    as (w' & Ht & Hs & _ & _ & _ & _ & Ha).
  exists w'. split; [exact Ht|]. split; [exact Ha|]. now rewrite Hs.
Defined.

(** X10: the output test is not guarded.  [test_all_outputs] has no [try]
    of its own: when the pin of the storm LED, the first it drives, raises,
    the call raises with nothing written; when the three LED pins work and
    the relay pin raises, it raises after the six LED writes, leaving the
    LEDs off. *)
Theorem test_all_outputs_raises (w : System) (e : string) :
  (fault (hw w) LED1_PIN = Some e -> test_all_outputs w = (Raised e, w)) /\
  (fault (hw w) LED1_PIN = None -> fault (hw w) LED2_PIN = None ->
   fault (hw w) LED3_PIN = None -> fault (hw w) ANTENNA_PIN = Some e ->
   test_all_outputs w =
     (Raised e,
      mkWorld (self w)
        (drive LED3_PIN 1 (drive LED3_PIN 0
         (drive LED2_PIN 1 (drive LED2_PIN 0
          (drive LED1_PIN 1 (drive LED1_PIN 0 (hw w))))))))).
Proof.
  destruct w as [me h]. cbn [hw self].
  unfold test_all_outputs. cbn [for_each]. decide_names.
  unfold bind, pin_set, ret. split.
  - intros H1. cbn [hw self]. now rewrite H1.
  - intros H1 H2 H3 H4. run_writes. rewrite H4. reflexivity.
Qed.

Lemma test_all_outputs_raises_witness :
  let w := demo no_override 0 0 0 [LED1_PIN] (Measured None None) in
  test_all_outputs w = (Raised "OSError"%string, w).
Proof.
  intros w. apply (test_all_outputs_raises w "OSError"%string). reflexivity.
Defined.

(** X11: the output test undoes a manual "on" and leaves the flag.  After a
    manual LED command that switched the LED on, or a manual antenna
    command that connected the relay, [test_all_outputs] on a working board
    leaves that output off; the flag stays set, so no later automatic cycle
    writes the output again: it stays off, whatever was commanded and
    whatever the sensors read. *)
Theorem test_clobbers_manual_state (w : System) (es : list Env) :
  pins_ok outputs (hw w) ->
  (forall c name,
     In name (led_names c) ->
     let w3 := auto_cycles es
                 (snd (test_all_outputs (snd (control_led name true w)))) in
     level (hw w3) (pin_of c) = 1 /\
     flag c (manual_override (self w3)) = true) /\
  (let w3 := auto_cycles es
               (snd (test_all_outputs (snd (control_antenna true true w)))) in
   level (hw w3) ANTENNA_PIN = 0 /\ level (hw w3) LED3_PIN = 1 /\
   antenna (manual_override (self w3)) = true /\
   on_air_led (manual_override (self w3)) = true).
Proof.
  intros Hout. pose proof (outputs_ok _ Hout) as (H1 & H2 & H3 & H4).
  split.
  - intros c name Hin.
    assert (Hf : fault (hw w) (pin_of c) = None)
      by (destruct c; cbn in Hin |- *; tauto).
    rewrite (control_led_runs c name true w Hin Hf). cbn [snd].
    match goal with |- context [test_all_outputs ?x] => set (w1 := x) end.
    assert (Hout1 : pins_ok outputs (hw w1)) by exact Hout.
    rewrite (test_all_outputs_runs w1 Hout1). cbn [snd].
    match goal with |- context [auto_cycles es ?x] => set (w2 := x) end.
    assert (Hfl : flag c (manual_override (self w2)) = true)
      by (subst w2 w1; destruct c; reflexivity).
    destruct (auto_cycles_frame c es w2 Hfl) as (Hs & Hl & _).
    cbv zeta. rewrite Hs, Hl. split; [|exact Hfl].
    subst w2 w1. destruct c; cbn in Hin; try contradiction; reflexivity.
  - rewrite (control_antenna_runs true w H1 H4). cbn [snd].
    match goal with |- context [test_all_outputs ?x] => set (w1 := x) end.
    assert (Hout1 : pins_ok outputs (hw w1)) by exact Hout.
    rewrite (test_all_outputs_runs w1 Hout1). cbn [snd].
    match goal with |- context [auto_cycles es ?x] => set (w2 := x) end.
    destruct (auto_cycles_frame Antenna es w2 eq_refl) as (Hs & Hla & _).
    destruct (auto_cycles_frame OnAirLed es w2 eq_refl) as (_ & Hll & _).
    cbv zeta. cbn [pin_of] in *. rewrite Hs, Hla, Hll.
    subst w2 w1. repeat split.
Qed.

Lemma test_clobbers_manual_state_witness :
  let w := demo no_override 1 0 0 [] (Measured (Some 20) (Some 50)) in
  let calm := mkEnv 1 0 (Measured (Some 20) (Some 50)) 2000 (fun _ => None) in
  let w3 := auto_cycles [calm]
              (snd (test_all_outputs (snd (control_antenna true true w)))) in
  level (hw w3) ANTENNA_PIN = 0 /\
  antenna (manual_override (self w3)) = true.
Proof.
  intros w calm w3.
  assert (Hok : pins_ok outputs (hw w)) by bench_ok.
  destruct (test_clobbers_manual_state w [calm] Hok)
    as (_ & Hl & _ & Hf & _).
  split; [exact Hl | exact Hf].
Defined.

(** X12: the individual LED test.  On a board whose three LED pins work,
    [test_individual_leds] blinks each LED three times (eighteen writes),
    leaves the three LEDs off, and touches neither the relay nor any
    flag. *)
Theorem test_individual_leds_effect (w : System) :
  fault (hw w) LED1_PIN = None ->
  fault (hw w) LED2_PIN = None ->
  fault (hw w) LED3_PIN = None ->
  exists w',
    test_individual_leds w = (Ok tt, w') /\
    self w' = self w /\
    writes (hw w') =
      writes (hw w) ++
      List.concat
        (List.map (fun p => [(p, 0); (p, 1); (p, 0); (p, 1); (p, 0); (p, 1)])
                  [LED1_PIN; LED2_PIN; LED3_PIN]) /\
    level (hw w') LED1_PIN = 1 /\ level (hw w') LED2_PIN = 1 /\
    level (hw w') LED3_PIN = 1 /\
    level (hw w') ANTENNA_PIN = level (hw w) ANTENNA_PIN.
Proof.
  intros H1 H2 H3. destruct w as [me h]. cbn [hw self] in *.
  unfold test_individual_leds. cbn [repeat_times].
  unfold bind, pin_set, ret. run_writes.
  eexists. split; [reflexivity|]. cbn [hw self drive writes].
  repeat rewrite <- app_assoc. repeat split.
Qed.

Lemma test_individual_leds_effect_witness :
  let w := demo no_override 0 0 1 [] (Measured None None) in
  exists w',
    test_individual_leds w = (Ok tt, w') /\
    level (hw w') ANTENNA_PIN = 1 /\ level (hw w') LED2_PIN = 1.
Proof.
  intros w.
  destruct (test_individual_leds_effect w eq_refl eq_refl eq_refl)
    as (w' & Ht & _ & _ & _ & H2 & _ & Ha).
  exists w'. split; [exact Ht|]. split; [exact Ha | exact H2].
Defined.

(** *** The request line *)

Section Split.
Local Open Scope string_scope.

Lemma append_empty_r (s : string) : s ++ "" = s.
Proof. induction s as [|a s IH]; cbn; [reflexivity | now rewrite IH]. Qed.

Lemma append_assoc_r (a b c : string) : (a ++ b) ++ c = a ++ (b ++ c).
Proof. induction a as [|x a IH]; cbn; [reflexivity | now rewrite IH]. Qed.

Lemma has_char_app (a : Ascii.ascii) (x y : string) :
  has_char a (x ++ y) = has_char a x || has_char a y.
Proof.
  induction x as [|b x IH]; cbn; [reflexivity|].
  now rewrite IH, orb_assoc.
Qed.

(** Characters that cannot start a separator are added to the field. *)
Lemma py_split_go_pass (a : Ascii.ascii) (sep' x cur y : string) :
  has_char a x = false ->
  py_split_go (String a sep') 0 cur (x ++ y)
  = py_split_go (String a sep') 0 (cur ++ x) y.
Proof.
  revert cur. induction x as [|b x IH]; intros cur Hx.
  - cbn [append]. now rewrite append_empty_r.
  - cbn in Hx. apply orb_false_elim in Hx. destruct Hx as [Hab Hx].
    cbn [append py_split_go String.prefix].
    destruct (Ascii.ascii_dec a b) as [->|_].
    + now rewrite Ascii.eqb_refl in Hab.
    + rewrite (IH _ Hx). now rewrite append_assoc_r.
Qed.

(** The first field begins with what was read so far. *)
Lemma py_split_go_hd (sep : string) (k : nat) (cur y : string) :
  List.hd "" (py_split_go sep k cur y)
  = cur ++ List.hd "" (py_split_go sep k "" y).
Proof.
  revert k cur. induction y as [|b y IH]; intros k cur.
  - cbn. now rewrite append_empty_r.
  - cbn [py_split_go]. destruct k as [|k]; [|apply IH].
    destruct (String.prefix sep (String b y)).
    + cbn. now rewrite append_empty_r.
    + rewrite IH. rewrite (IH 0%nat ("" ++ String b "")).
      now rewrite append_assoc_r.
Qed.

Lemma py_in_space (x y : string) : py_in " " (x ++ " " ++ y) = true.
Proof.
  induction x as [|b x IH].
  - destruct y; reflexivity.
  - cbn [append py_in]. cbn [append] in IH. rewrite IH. apply orb_true_r.
Qed.

(** A field free of spaces, then a space: the field is split off. *)
Lemma py_split_space_field (x cur y : string) :
  has_char (Ascii.ascii_of_nat 32) x = false ->
  py_split_go " " 0 cur (x ++ " " ++ y)
  = (cur ++ x) :: py_split_go " " 0 "" y.
Proof.
  intros Hx. rewrite (py_split_go_pass (Ascii.ascii_of_nat 32) "" x cur _ Hx).
  destruct y; reflexivity.
Qed.

End Split.

(** X13: the path of a request.  For a request that begins with a method,
    a space, a path and a space, where method and path contain neither a
    space nor a carriage return, [handle_request] takes the path to be
    exactly that second field, whatever the method is and whatever follows
    (version, headers, body). *)
Theorem request_path_second_field (method path rest : string) :
  has_char (Ascii.ascii_of_nat 32) method = false ->
  has_char (Ascii.ascii_of_nat 13) method = false ->
  has_char (Ascii.ascii_of_nat 32) path = false ->
  has_char (Ascii.ascii_of_nat 13) path = false ->
  request_path (method ++ " " ++ path ++ " " ++ rest) = path.
Proof.
  intros Hm1 Hm2 Hp1 Hp2. unfold request_path, py_split, crlf.
  set (cr := Ascii.ascii_of_nat 13) in *.
  set (x := (method ++ " " ++ path ++ " ")%string).
  assert (Ex : (method ++ " " ++ path ++ " " ++ rest)%string
               = (x ++ rest)%string).
  { subst x. now rewrite !append_assoc_r. }
  assert (Hx : has_char cr x = false).
  { subst x. rewrite !has_char_app, Hm2, Hp2. reflexivity. }
  rewrite Ex, (py_split_go_pass cr _ x "" rest Hx), py_split_go_hd.
  cbn [append].
  set (r1 := List.hd ""%string (py_split_go _ 0 ""%string rest)).
  assert (El : (x ++ r1)%string = (method ++ " " ++ path ++ " " ++ r1)%string).
  { subst x. now rewrite !append_assoc_r. }
  rewrite El, py_in_space.
  rewrite (py_split_space_field method "" _ Hm1).
  rewrite (py_split_space_field path "" _ Hp1).
  cbn [append List.length List.nth].
  destruct (py_split_go " " 0 "" r1); reflexivity.
Qed.

Lemma request_path_second_field_witness :
  request_path ("POST /led/storm/on HTTP/1.1" ++ crlf ++ "Host: esp32" ++ crlf)
  = "/led/storm/on"%string.
Proof.
  apply (request_path_second_field "POST" "/led/storm/on"
           ("HTTP/1.1" ++ crlf ++ "Host: esp32" ++ crlf)); reflexivity.
Defined.

(** *** The request handler *)

Lemma keeps_client_recv (I : System -> Prop) (c : Client) :
  keeps I (client_recv c).
Proof. intros w Hw. unfold client_recv. now destruct (recv c). Qed.

Lemma keeps_client_send (I : System -> Prop) (c : Client) (r : Response) :
  keeps I (client_send c r).
Proof. intros w Hw. unfold client_send. now destruct (send_fault c). Qed.

Lemma bystander_self {A} (c : M System A) (w : System) :
  bystander c -> self (snd (c w)) = self w.
Proof.
  intros H.
  apply (H (self w) (level (hw w) PIR_PIN) (writes_to PIR_PIN (hw w)) w).
  now repeat split.
Qed.

Lemma bystander_linked {A} (c : M System A) :
  bystander c -> keeps (fun w : System => linked (manual_override (self w))) c.
Proof. intros H w Hw. cbv beta. now rewrite bystander_self. Qed.

Lemma bystander_update_logic : bystander update_logic.
Proof. intros me v l. unfold update_logic. cbv zeta. repeat keeps_step. Qed.

Lemma bystander_test_all_outputs : bystander test_all_outputs.
Proof.
  intros me v l. unfold test_all_outputs. cbn [for_each]. decide_names.
  repeat keeps_step.
Qed.

Lemma bystander_test_individual_leds : bystander test_individual_leds.
Proof.
  intros me v l. unfold test_individual_leds. cbn [repeat_times].
  repeat keeps_step.
Qed.

Lemma keeps_client_recv_val {B} (I : System -> Prop) (c : Client)
      (k : string -> M System B) :
  (forall request, recv c = inr request -> keeps I (k request)) ->
  keeps I (bind (client_recv c) k).
Proof.
  intros H w Hw. unfold bind, client_recv.
  destruct (recv c) as [e|r]; [exact Hw|]. apply (H r eq_refl), Hw.
Qed.

(** A request that is not empty: the cycle runs, then the route, then the
    answer is sent; the [except] of the handler answers 500 when the route
    raised, and gives up when [send] raises. *)
Lemma handle_request_served (c : Client) (request : string) (w : System) :
  recv c = inr request -> request <> EmptyString ->
  exists sensors w1,
    update_logic w = (Ok sensors, w1) /\
    handle_request c w =
      match route (request_path request) sensors w1 with
      | (Ok r, w2) =>
          (Ok (match send_fault c with Some _ => None | None => Some r end),
           w2)
      | (Raised _, w2) =>
          (Ok (match send_fault c with
               | Some _ => None
               | None => Some error_response
               end), w2)
      end.
Proof.
  intros Hr Hne. destruct (update_logic_total w) as (s & w1 & Hu).
  exists s, w1. split; [exact Hu|].
  unfold handle_request, try_except, bind, client_recv, client_send, ret.
  rewrite Hr. destruct (String.eqb_spec request EmptyString); [contradiction|].
  cbv zeta. rewrite Hu.
  destruct (route (request_path request) s w1) as [[r|e] w2];
    destruct (send_fault c); reflexivity.
Qed.

Lemma bystander_route (path : string) (sensors : Sensors) :
  ~ In path command_paths -> bystander (route path sensors).
Proof.
  intros Hn me v l. unfold route.
  repeat match goal with
  | |- keeps _ (if String.eqb path ?x then _ else _) =>
      destruct (String.eqb_spec path x) as [->|_]
  end.
  all: try solve [exfalso; apply Hn; unfold command_paths; cbn [In];
                  repeat first [now left | right]].
  all: repeat first [ keeps_step
                    | apply bystander_test_all_outputs
                    | apply bystander_test_individual_leds ].
Qed.

Lemma bystander_handle_request (c : Client) :
  (forall request,
     recv c = inr request -> ~ In (request_path request) command_paths) ->
  bystander (handle_request c).
Proof.
  intros Hn me v l. unfold handle_request.
  apply keeps_try_except.
  - apply keeps_client_recv_val. intros request Hr.
    apply keeps_if; intros _; [apply keeps_ret|]. cbv zeta.
    apply keeps_bind; [apply bystander_update_logic|intros sensors].
    apply keeps_bind; [apply bystander_route, Hn, Hr|intros r].
    apply keeps_bind; [apply keeps_client_send|intros _; apply keeps_ret].
  - intros e. apply keeps_try_except; [|intros _; apply keeps_ret].
    apply keeps_bind; [apply keeps_client_send|intros _; apply keeps_ret].
Qed.

(** X14: the handler never raises.  Whatever the client sends, whether
    [recv] or [send] raise and whichever pins are broken, [handle_request]
    returns.  It reports no answer when [send] raises.  On an empty request
    it returns at once: no cycle runs and nothing changes.  When [recv]
    raises, nothing changes either and the answer is the 500 page, if
    [send] works. *)
Theorem handle_request_never_raises (c : Client) (w : System) :
  exists r w',
    handle_request c w = (Ok r, w') /\
    (send_fault c <> None -> r = None) /\
    (recv c = inr EmptyString -> r = None /\ w' = w) /\
    (forall e, recv c = inl e ->
       w' = w /\ (send_fault c = None -> r = Some error_response)).
Proof.
  destruct (recv c) as [e|request] eqn:Hr.
  - unfold handle_request, try_except, bind, client_recv, client_send, ret.
    rewrite Hr. destruct (send_fault c) as [e'|].
    + do 2 eexists. split; [reflexivity|]. repeat split; try discriminate.
    + do 2 eexists. split; [reflexivity|].
      split; [intros H; now elim H|]. split; [discriminate|]. now split.
  - destruct (String.eqb_spec request EmptyString) as [->|Hne].
    + unfold handle_request, try_except, bind, client_recv, ret.
      rewrite Hr. cbn. do 2 eexists. split; [reflexivity|].
      repeat split; discriminate.
    + destruct (handle_request_served c request w Hr Hne)
        as (s & w1 & _ & ->).
      destruct (route (request_path request) s w1) as [[r|e] w2];
        do 2 eexists; (split; [reflexivity|]);
        (split; [destruct (send_fault c); [reflexivity|intros H; now elim H]|]);
        (split; [intros [= ->]; now elim Hne|discriminate]).
Qed.

(** X15: the attributes change on command paths only.  When the path of
    the request is none of the nine command paths (the page, the status
    API, the two output tests, an unknown path), or when [recv] raises,
    [handle_request] assigns no attribute of the object: the flags and the
    thresholds are as before, whatever the pins do. *)
Theorem attributes_change_only_on_command_paths (c : Client) (w : System) :
  (forall request,
     recv c = inr request -> ~ In (request_path request) command_paths) ->
  self (snd (handle_request c w)) = self w.
Proof.
  intros Hn. apply bystander_self, bystander_handle_request, Hn.
Qed.

Lemma attributes_change_only_on_command_paths_witness :
  let c := mkClient (inr ("GET /test/outputs HTTP/1.1" ++ crlf ++ crlf)%string)
                    None in
  let w := demo (mkOverrides true false false true) 1 0 1 [LED2_PIN]
                (Measured None None) in
  self (snd (handle_request c w)) = self w.
Proof.
  intros c w. apply (attributes_change_only_on_command_paths c w).
  intros request [= <-]. vm_compute.
  intros H. repeat destruct H as [H|H]; try discriminate H. exact H.
Defined.

(** X16: the server keeps the antenna flag and the on-air LED flag
    coupled.  From the attributes of [__init__], after any sequence of
    requests, whatever they ask, whatever the sensors read in between and
    whichever calls raise, the antenna flag is set only if the on-air LED
    flag is.  So in every state the server reaches, on a board whose
    output pins work, a cycle with the on-air LED flag clear writes the
    on-air LED once, low (on) exactly when a person is present and no
    storm is on. *)
Theorem server_keeps_flags_coupled (dht_ok : bool) (h : Hardware)
        (rs : list (Env * Client)) :
  let w := serve rs (mkWorld (init_self dht_ok) h) in
  linked (manual_override (self w)) /\
  (pins_ok outputs (hw w) ->
   on_air_led (manual_override (self w)) = false ->
   exists s w',
     update_logic w = (Ok s, w') /\
     on_air s = Some (presence s && negb (storm s)) /\
     writes_to LED3_PIN (hw w') =
       writes_to LED3_PIN (hw w) ++
       [(LED3_PIN, if presence s && negb (storm s) then 0 else 1)] /\
     level (hw w') LED3_PIN = (if presence s && negb (storm s) then 0 else 1)).
Proof.
  cbv zeta.
  assert (Hl : forall w0 : System,
             linked (manual_override (self w0)) ->
             linked (manual_override (self (serve rs w0)))).
  { induction rs as [|[e c] rs IH]; intros w0 H0; cbn [serve]; [exact H0|].
    apply IH.
    assert (Hk : keeps (fun w : System => linked (manual_override (self w)))
                       (handle_request c)).
    { unfold handle_request.
      apply keeps_try_except.
      - apply keeps_bind; [apply keeps_client_recv|intros request].
        apply keeps_if; intros _; [apply keeps_ret|]. cbv zeta.
        apply keeps_bind; [exact linked_update_logic|intros sensors].
        apply keeps_bind;
          [|intros r; apply keeps_bind;
            [apply keeps_client_send|intros _; apply keeps_ret]].
        unfold route.
        repeat first
          [ exact (linked_control_antenna _ _)
          | exact (linked_control_led _ _)
          | exact (fun w _ => linked_reset w)
          | exact (bystander_linked _ bystander_test_all_outputs)
          | exact (bystander_linked _ bystander_test_individual_leds)
          | apply keeps_ret
          | apply keeps_if; intros _
          | apply keeps_bind; [|intros _] ].
      - intros e'. apply keeps_try_except; [|intros _; apply keeps_ret].
        apply keeps_bind; [apply keeps_client_send|intros _; apply keeps_ret]. }
    apply Hk. exact H0. }
  specialize (Hl (mkWorld (init_self dht_ok) h) (linked_init dht_ok)).
  split; [exact Hl|].
  set (w := serve rs (mkWorld (init_self dht_ok) h)) in *.
  intros Hout Hf.
  assert (Ha : antenna (manual_override (self w)) = false).
  { destruct (antenna (manual_override (self w))) eqn:Ha; [|reflexivity].
    rewrite (Hl Ha) in Hf. discriminate. }
  destruct (read_sensors_total w) as [s Hs].
  destruct (automatic_cycle w s Hout Hs Ha)
    as (s' & w' & Hu & (Hp & Hst & _) & Ho & _ & _ & _ & _ & _ & H3).
  destruct (H3 Hf) as (Hw3 & Hl3).
  exists s', w'. rewrite Hp, Hst. auto.
Qed.

(** X17: a reset request moves no overridden output.  The cycle of the
    request runs before the route, with the flags still set, and the reset
    writes no pin: when the path is [/reset/overrides], the request leaves
    every overridden output at its level and does no write on its pin,
    and clears all four flags, whether the answer can be sent or not. *)
Theorem reset_request_moves_no_overridden_output
        (c : Client) (request : string) (ch : channel) (w : System) :
  recv c = inr request ->
  request_path request = "/reset/overrides"%string ->
  flag ch (manual_override (self w)) = true ->
  let w' := snd (handle_request c w) in
  manual_override (self w') = no_override /\
  level (hw w') (pin_of ch) = level (hw w) (pin_of ch) /\
  writes_to (pin_of ch) (hw w') = writes_to (pin_of ch) (hw w).
Proof.
  intros Hr Hp Hf.
  assert (Hne : request <> EmptyString).
  { intros ->. vm_compute in Hp. discriminate. }
  destruct (handle_request_served c request w Hr Hne) as (s & w1 & Hu & ->).
  rewrite Hp.
  destruct (update_logic_frame ch (self w) (level (hw w) (pin_of ch))
              (writes_to (pin_of ch) (hw w)) Hf w) as (Hs & Hl & Hw).
  { now repeat split. }
  rewrite Hu in Hs, Hl, Hw. cbn [snd] in Hs, Hl, Hw.
  cbv zeta. cbn. auto.
Qed.

Lemma reset_request_moves_no_overridden_output_witness :
  let c := mkClient (inr ("GET /reset/overrides HTTP/1.1" ++ crlf ++ crlf)%string)
                    None in
  let w := demo (mkOverrides false false true true) 0 1 1 []
                (Measured None None) in
  let w' := snd (handle_request c w) in
  manual_override (self w') = no_override /\
  level (hw w') ANTENNA_PIN = 1.
Proof.
  intros c w w'.
  destruct (reset_request_moves_no_overridden_output
              c _ Antenna w eq_refl eq_refl eq_refl) as (Ho & Hl & _).
  split; [exact Ho | exact Hl].
Defined.

(** No call of the cycle repairs or breaks a pin. *)
Lemma keeps_faults_pin_set (f : gpio -> option string) (p : gpio) (v : Z) :
  keeps (fun w : System => fault (hw w) = f) (pin_set p v).
Proof. intros w Hw. unfold pin_set. now destruct (fault (hw w) p). Qed.

Lemma update_logic_faults (w : System) :
  fault (hw (snd (update_logic w))) = fault (hw w).
Proof.
  assert (H : keeps (fun w0 : System => fault (hw w0) = fault (hw w))
                    update_logic).
  { unfold update_logic. cbv zeta.
    repeat lazymatch goal with
    | |- keeps _ (try_except _ _) => apply keeps_try_except; [|intros ?]
    | |- keeps _ (bind _ _) => apply keeps_bind; [|intros ?]
    | |- keeps _ read_sensors => apply keeps_read_sensors
    | |- keeps _ get_self => intros ? ?; assumption
    | |- keeps _ (ret _) => apply keeps_ret
    | |- keeps _ (if ?b then _ else _) => apply keeps_if; intros ?
    | |- keeps _ (let '(_, _) := ?x in _) => destruct x
    | |- keeps _ (pin_set _ _) => apply keeps_faults_pin_set
    end. }
  apply H. reflexivity.
Qed.

(** X18: a failed output test is answered with the 500 page.
    [test_all_outputs] has no [try] of its own; the [except] of the handler
    catches what it raises.  When the path is [/test/outputs], the pin of
    the storm LED raises and [send] works, the client is sent the 500 page
    and not the text of a completed test; no attribute changes. *)
Theorem failed_output_test_answers_500
        (c : Client) (request e : string) (w : System) :
  recv c = inr request ->
  request_path request = "/test/outputs"%string ->
  fault (hw w) LED1_PIN = Some e ->
  send_fault c = None ->
  exists w',
    handle_request c w = (Ok (Some error_response), w') /\ self w' = self w.
Proof.
  intros Hr Hp Hf Hsend.
  assert (Hne : request <> EmptyString).
  { intros ->. vm_compute in Hp. discriminate. }
  destruct (handle_request_served c request w Hr Hne) as (s & w1 & Hu & ->).
  pose proof (update_logic_faults w) as Hfa.
  pose proof (update_logic_self w) as Hse.
  rewrite Hu in Hfa, Hse. cbn [snd] in Hfa, Hse.
  rewrite Hp, Hsend.
  assert (Ht : route "/test/outputs" s w1 = (Raised e, w1)).
  { unfold route. cbn [String.eqb Ascii.eqb Bool.eqb].
    destruct w1 as [me h1]. cbn [hw self] in *.
    unfold test_all_outputs. cbn [for_each]. decide_names.
    unfold bind, pin_set, ret. cbn [hw self]. rewrite Hfa, Hf. reflexivity. }
  rewrite Ht. eexists. split; [reflexivity|exact Hse].
Qed.

Lemma failed_output_test_answers_500_witness :
  let c := mkClient (inr ("GET /test/outputs HTTP/1.1" ++ crlf ++ crlf)%string)
                    None in
  let w := demo no_override 1 0 0 [LED1_PIN] (Measured None None) in
  exists w',
    handle_request c w = (Ok (Some error_response), w') /\ self w' = self w.
Proof.
  intros c w.
  apply (failed_output_test_answers_500
           c ("GET /test/outputs HTTP/1.1" ++ crlf ++ crlf)%string
           "OSError"%string w); reflexivity.
Defined.

(** *** A failed sensor read and the relay *)

(** X19: a failed sensor read leaves the relay where it is.  When the [try]
    body of [read_sensors] raises, the dict of the cycle says that the
    antenna is not connected and that it shall not be; the two agree, so
    [update_logic] does no write on the relay: its level is as before the
    cycle, connected if it was connected, whatever the flags and the other
    pins. *)
Theorem failed_read_leaves_relay (w : System) (e : string) :
  fst (read_sensors_try w) = Raised e ->
  exists s w',
    update_logic w = (Ok s, w') /\
    antenna_connected s = false /\ get_on_air s = false /\
    level (hw w') ANTENNA_PIN = level (hw w) ANTENNA_PIN /\
    writes_to ANTENNA_PIN (hw w') = writes_to ANTENNA_PIN (hw w).
Proof.
  intros Hr. apply read_sensors_try_raises in Hr. rename Hr into Hff.
  destruct w as [[dh ht tmn tmx [o1 o2 o3 o4]] h].
  cbn [hw] in Hff.
  unfold update_logic, try_except, bind, get_self, ret, pin_set,
    antenna_rule, bool_ne.
  repeat run_faulty_step e Hff.
  all: do 2 eexists; split; [reflexivity|].
  all: repeat split.
  all: first [ reflexivity | count_writes; reflexivity ].
Qed.

Lemma failed_read_leaves_relay_witness :
  let w := demo no_override 1 1 1 [PIR_PIN] (Measured (Some 20) (Some 50)) in
  exists s w',
    update_logic w = (Ok s, w') /\ get_on_air s = false /\
    level (hw w') ANTENNA_PIN = 1.
Proof.
  intros w.
  destruct (failed_read_leaves_relay w "OSError"%string eq_refl)
    as (s & w' & Hu & _ & Ho & Hl & _).
  exists s, w'. split; [exact Hu|]. split; [exact Ho | exact Hl].
Defined.

(** *** The states the object gets into *)

Lemma keeps_linked_handle_request (c : Client) :
  keeps (fun w : System => linked (manual_override (self w)))
        (handle_request c).
Proof.
  unfold handle_request.
  apply keeps_try_except.
  - apply keeps_bind; [apply keeps_client_recv|intros request].
    apply keeps_if; intros _; [apply keeps_ret|]. cbv zeta.
    apply keeps_bind; [exact linked_update_logic|intros sensors].
    apply keeps_bind;
      [|intros r; apply keeps_bind;
        [apply keeps_client_send|intros _; apply keeps_ret]].
    unfold route.
    repeat first
      [ exact (linked_control_antenna _ _)
      | exact (linked_control_led _ _)
      | exact (fun w _ => linked_reset w)
      | exact (bystander_linked _ bystander_test_all_outputs)
      | exact (bystander_linked _ bystander_test_individual_leds)
      | apply keeps_ret
      | apply keeps_if; intros _
      | apply keeps_bind; [|intros _] ].
  - intros e'. apply keeps_try_except; [|intros _; apply keeps_ret].
    apply keeps_bind; [apply keeps_client_send|intros _; apply keeps_ret].
Qed.

(** Every call keeps the coupling of the two flags. *)
Lemma keeps_linked_call (m : Call) :
  keeps (fun w : System => linked (manual_override (self w))) (call m).
Proof.
  destruct m; cbn [call].
  - apply keeps_bind; [|intros _; apply keeps_ret].
    intros w Hw. destruct (read_dht11_total w) as [r ->]. exact Hw.
  - apply keeps_bind; [apply keeps_read_sensors|intros _; apply keeps_ret].
  - apply keeps_bind; [exact linked_update_logic|intros _; apply keeps_ret].
  - intros w Hw. exact Hw.
  - exact (linked_control_antenna _ _).
  - exact (linked_control_led _ _).
  - exact (fun w _ => linked_reset w).
  - exact (bystander_linked _ bystander_test_all_outputs).
  - exact (bystander_linked _ bystander_test_individual_leds).
  - apply keeps_bind; [apply keeps_linked_handle_request
                      |intros _; apply keeps_ret].
Qed.

Lemma calls_linked (ms : list (Env * Call)) :
  forall w : System,
    linked (manual_override (self w)) ->
    linked (manual_override (self (calls ms w))).
Proof.
  induction ms as [|[e m] ms IH]; intros w Hw; cbn [calls]; [exact Hw|].
  apply IH. apply (keeps_linked_call m). exact Hw.
Qed.

(** One cycle on a board whose output pins work, in a state where the two
    flags are coupled: each LED whose flag is clear is written once. *)
Lemma led_rules_cycle (w : System) (s : Sensors) :
  pins_ok outputs (hw w) ->
  read_sensors w = (Ok s, w) ->
  linked (manual_override (self w)) ->
  let d := presence s && negb (storm s) in
  exists s' w',
    update_logic w = (Ok s', w') /\
    (presence s' = presence s /\ storm s' = storm s /\
     clouds s' = clouds s) /\
    (on_air_led (manual_override (self w)) = false ->
     on_air s' = Some d /\
     writes_to LED3_PIN (hw w') =
       writes_to LED3_PIN (hw w) ++ [(LED3_PIN, if d then 0 else 1)] /\
     level (hw w') LED3_PIN = (if d then 0 else 1)) /\
    (storm_led (manual_override (self w)) = false ->
     writes_to LED1_PIN (hw w') =
       writes_to LED1_PIN (hw w) ++ [(LED1_PIN, if storm s then 0 else 1)]) /\
    (clouds_led (manual_override (self w)) = false ->
     writes_to LED2_PIN (hw w') =
       writes_to LED2_PIN (hw w) ++ [(LED2_PIN, if clouds s then 0 else 1)]).
Proof.
  intros Hout Hs Hl d.
  destruct (antenna (manual_override (self w))) eqn:Ha.
  - pose proof (Hl Ha) as Ho.
    apply outputs_ok in Hout. destruct Hout as (H1 & H2 & H3 & H4).
    destruct w as [[dh ht tmn tmx [o1 o2 o3 o4]] h].
    cbn [self hw manual_override antenna storm_led clouds_led on_air_led] in *.
    subst o3 o4. subst d.
    destruct s as [p st c ac t hu ws ds ts cr oa mo].
    cbn [presence storm clouds antenna_connected].
    run_cycle.
    all: do 2 eexists; split; [reflexivity|].
    all: cbn [presence storm clouds antenna_connected on_air self hw fault
              andb negb].
    all: repeat split; try discriminate; try (intros _).
    all: try (count_writes; reflexivity).
    all: try reflexivity.
  - destruct (automatic_cycle w s Hout Hs Ha)
      as (s' & w' & Hu & (Hp & Hst & Hc & _) & Hd & _ & _ & _ & H1 & H2 & H3).
    exists s', w'. split; [exact Hu|]. split; [auto|].
    split; [|split; assumption].
    intros Ho. split; [exact Hd | exact (H3 Ho)].
Qed.

(** C4: the on-air LED rule, in every state the object gets into.  The
    write of the on-air LED sits inside the antenna branch of
    [update_logic], yet the methods keep the antenna flag set only together
    with the on-air LED flag.  So after [__init__] and any calls of the
    methods, whatever the sensors read and whichever calls raise, on a
    board whose output pins accept writes: a cycle in which the on-air LED
    flag is clear writes the on-air LED once, low (on) exactly when the
    decision [presence and not storm] is to connect, and returns that
    decision; there is no hypothesis on the antenna flag.  The storm LED
    and the clouds LED are written once each when their own flag is clear,
    from the storm sensor and from the weather. *)
Theorem on_air_led_follows_decision
        (dht_ok : bool) (h : Hardware) (ms : list (Env * Call)) :
  let w := calls ms (mkWorld (init_self dht_ok) h) in
  pins_ok outputs (hw w) ->
  exists s w',
    update_logic w = (Ok s, w') /\
    (on_air_led (manual_override (self w)) = false ->
     on_air s = Some (presence s && negb (storm s)) /\
     writes_to LED3_PIN (hw w') =
       writes_to LED3_PIN (hw w) ++
       [(LED3_PIN, if presence s && negb (storm s) then 0 else 1)] /\
     level (hw w') LED3_PIN =
       (if presence s && negb (storm s) then 0 else 1)) /\
    (storm_led (manual_override (self w)) = false ->
     writes_to LED1_PIN (hw w') =
       writes_to LED1_PIN (hw w) ++ [(LED1_PIN, if storm s then 0 else 1)]) /\
    (clouds_led (manual_override (self w)) = false ->
     writes_to LED2_PIN (hw w') =
       writes_to LED2_PIN (hw w) ++ [(LED2_PIN, if clouds s then 0 else 1)]).
Proof.
  intros w Hout.
  assert (Hl : linked (manual_override (self w)))
    by (apply calls_linked, linked_init).
  destruct (read_sensors_total w) as [s0 Hs].
  destruct (led_rules_cycle w s0 Hout Hs Hl)
    as (s & w' & Hu & (Hp & Hst & Hc) & H3 & H1 & H2).
  exists s, w'. rewrite Hp, Hst, Hc. auto.
Qed.

(** C4 after a manual antenna command, a reset and a manual storm LED
    command, with a person present and no storm: the on-air LED flag is
    clear again, and the cycle writes the on-air LED low. *)
Lemma on_air_led_follows_decision_witness :
  let calm := mkEnv 1 0 (Measured (Some 20) (Some 50)) 2000 (fun _ => None) in
  let ms := [(calm, CallControlAntenna false true);
             (calm, CallResetManualOverrides);
             (calm, CallControlLed "storm" true)] in
  let w := calls ms (demo no_override 0 0 0 [] (Measured None None)) in
  exists s w',
    update_logic w = (Ok s, w') /\
    level (hw w') LED3_PIN = 0.
Proof.
  intros calm ms w.
  assert (Hok : pins_ok outputs (hw w)) by (intros p _; reflexivity).
  destruct (on_air_led_follows_decision true _ ms Hok)
    as (s & w' & Hu & H3 & _).
  destruct (H3 eq_refl) as (Ho & _ & Hl).
  exists s, w'. split; [exact Hu|]. rewrite Hl.
  change w with (calls ms (demo no_override 0 0 0 [] (Measured None None)))
    in Hu.
  vm_compute in Hu. injection Hu as <- _. reflexivity.
Defined.

End MainMore.

(** ** renesans_template.py, further properties *)

Module TemplateMore.
Import Template TemplateFacts.

(** X20: in the template a manual antenna command lasts until the next
    cycle.  On a board whose pins work, [control_antenna] writes the relay
    once; the cycle that follows drives the relay back to
    [presence and not storm] when the command differs from it, so that
    after the cycle the relay shows the sensors and not the command. *)
Theorem template_manual_command_does_not_persist (w : System) (connect : bool) :
  pins_ok pins (hw w) ->
  let d := truthy (level (hw w) PIR_PIN)
           && negb (truthy (level (hw w) STORM_PIN)) in
  exists w1 s w2,
    control_antenna connect w = (Ok tt, w1) /\
    level (hw w1) ANTENNA_PIN = (if connect then 1 else 0) /\
    update_logic w1 = (Ok s, w2) /\
    level (hw w2) ANTENNA_PIN = (if d then 1 else 0) /\
    writes (hw w2) =
      writes (hw w) ++ [(ANTENNA_PIN, if connect then 1 else 0)] ++
      (if bool_ne d connect then [(ANTENNA_PIN, if d then 1 else 0)] else []).
Proof.
  intros Hp d.
  assert (H3 : fault (hw w) ANTENNA_PIN = None) by (apply Hp; cbn; auto).
  unfold control_antenna, try_except, pin_set. rewrite H3.
  set (w1 := mkWorld (self w) (drive ANTENNA_PIN (if connect then 1 else 0) (hw w))).
  assert (Hp1 : pins_ok pins (hw w1)) by exact Hp.
  destruct (template_cycle w1 Hp1) as (s & Hu & _).
  assert (Hb : truthy (level (hw w1) ANTENNA_PIN) = connect)
    by (subst w1; now destruct connect).
  rewrite Hb in Hu.
  change (truthy (level (hw w1) PIR_PIN)
          && negb (truthy (level (hw w1) STORM_PIN))) with d in Hu.
  exists w1. do 2 eexists. split; [reflexivity|].
  split; [reflexivity|]. split; [exact Hu|].
  subst w1. cbn [hw].
  destruct d, connect; cbn; rewrite <- ?app_assoc; split; reflexivity.
Qed.

Lemma template_manual_command_does_not_persist_witness :
  let w := mkWorld tt (bench [(PIR_PIN, 1); (STORM_PIN, 1)] [] 
                             (Measured None None) 0) in
  exists w1 s w2,
    control_antenna true w = (Ok tt, w1) /\
    level (hw w1) ANTENNA_PIN = 1 /\
    update_logic w1 = (Ok s, w2) /\
    level (hw w2) ANTENNA_PIN = 0.
Proof.
  intros w.
  assert (Hok : pins_ok pins (hw w)).
  { intros p Hin. cbn in Hin.
    repeat (destruct Hin as [<-|Hin]; [reflexivity|]). destruct Hin. }
  destruct (template_manual_command_does_not_persist w true Hok)
    as (w1 & s & w2 & Hc & Hl1 & Hu & Hl2 & _).
  exists w1, s, w2. repeat split; assumption.
Defined.

(** X21: a failed sensor read in the template writes nothing.  When a pin
    read of [read_sensors] raises, [update_logic] returns the all-false
    dict and leaves the board as it is: the relay is not written, and stays
    connected if it was. *)
Theorem template_failed_read_writes_nothing (w : System) (e : string) :
  fst (read_sensors_try w) = Raised e ->
  update_logic w = (Ok (mkSensors false false false (ticks (hw w))), w).
Proof.
  unfold update_logic, read_sensors, read_sensors_try, try_except, bind,
    pin_get, ticks_ms, ret.
  destruct (fault (hw w) PIR_PIN); [reflexivity|].
  destruct (fault (hw w) STORM_PIN); [reflexivity|].
  destruct (fault (hw w) ANTENNA_PIN); [reflexivity|discriminate].
Qed.

Lemma template_failed_read_writes_nothing_witness :
  let w := mkWorld tt (bench [(PIR_PIN, 1); (STORM_PIN, 1); (ANTENNA_PIN, 1)]
                             [STORM_PIN] (Measured None None) 7) in
  update_logic w = (Ok (mkSensors false false false 7), w).
Proof.
  intros w.
  apply (template_failed_read_writes_nothing w "OSError"%string).
  reflexivity.
Defined.

End TemplateMore.

(** ** renesans_latest.py, further properties *)

Module LatestMore.
Import Latest LatestFacts.

(** X22: the status LED is an output that a cycle leaves to the command.
    After [control_led] with ['status'] has written the LED, the cycle
    that follows does no write on the status LED, whichever other pins
    raise: the LED keeps the commanded level over the cycle. *)
Theorem status_led_command_persists (w : System) (state : bool) :
  fault (hw w) STATUS_LED_PIN = None ->
  let w2 := snd (update_logic (snd (control_led "status" state w))) in
  level (hw w2) STATUS_LED_PIN = (if state then 1 else 0) /\
  writes_to STATUS_LED_PIN (hw w2) =
    writes_to STATUS_LED_PIN (hw w) ++
    [(STATUS_LED_PIN, if state then 1 else 0)].
Proof.
  intros Hf. cbv zeta.
  unfold control_led, try_except, pin_set. cbn [String.eqb Ascii.eqb Bool.eqb].
  rewrite Hf. cbn [snd].
  set (w1 := mkWorld (self w) (drive STATUS_LED_PIN (if state then 1 else 0) (hw w))).
  destruct (latest_cycle_frame_status (level (hw w1) STATUS_LED_PIN)
              (writes_to STATUS_LED_PIN (hw w1)) w1) as (_ & Hl & Hw).
  { repeat split. now destruct (self w1). }
  rewrite Hl, Hw. subst w1. cbn [hw]. split.
  - cbn. reflexivity.
  - unfold writes_to. cbn [writes drive]. rewrite filter_app. reflexivity.
Qed.

Lemma status_led_command_persists_witness :
  let w := mkWorld tt (bench [(PIR_PIN, 1); (STORM_PIN, 1)] [STORM_LED_PIN]
                             (Measured None None) 0) in
  level (hw (snd (update_logic (snd (control_led "status" true w)))))
        STATUS_LED_PIN = 1.
Proof.
  intros w.
  destruct (status_led_command_persists w true eq_refl) as (Hl & _).
  exact Hl.
Defined.

(** X23: a failed sensor read switches the LEDs off and leaves the relay.
    When a pin read of [read_sensors] raises, [update_logic] returns a
    dict with presence, storm and clouds false and does no write on the
    relay, which stays connected if it was; when the two LED pins work it
    writes both LEDs low (off) and nothing else. *)
Theorem latest_failed_read_leaves_relay (w : System) (e : string) :
  fst (read_sensors_try w) = Raised e ->
  exists s w',
    update_logic w = (Ok s, w') /\
    (presence s = false /\ storm s = false /\ clouds s = false) /\
    level (hw w') ANTENNA_PIN = level (hw w) ANTENNA_PIN /\
    writes_to ANTENNA_PIN (hw w') = writes_to ANTENNA_PIN (hw w) /\
    (fault (hw w) STORM_LED_PIN = None ->
     fault (hw w) CLOUDS_LED_PIN = None ->
     writes (hw w') =
       writes (hw w) ++ [(STORM_LED_PIN, 0); (CLOUDS_LED_PIN, 0)]).
Proof.
  intros Hr. pose proof (latest_read_fail_safe w e Hr) as Hs.
  destruct w as [me h]. cbn [hw] in *.
  unfold update_logic, try_except, bind, pin_set, ret.
  rewrite Hs. cbn [storm clouds presence antenna_connected hw self].
  destruct (fault h STORM_LED_PIN) as [e1|] eqn:H1.
  - rewrite Hs. do 2 eexists. split; [reflexivity|].
    repeat split; discriminate.
  - cbn [hw self fault drive].
    destruct (fault h CLOUDS_LED_PIN) as [e2|] eqn:H2.
    + match goal with |- context [read_sensors ?x] => set (w1 := x) end.
      assert (Hx : fst (read_sensors_try w1) = Raised e).
      { revert Hr. subst w1.
        unfold read_sensors_try, bind, pin_get, ticks_ms, ret.
        cbn [hw fault drive].
        repeat (match goal with
                | |- context [fault h ?p] => destruct (fault h p)
                end; cbn [hw fault drive fst]).
        all: first [intros; discriminate | auto]. }
      rewrite (latest_read_fail_safe w1 e Hx).
      do 2 eexists. split; [reflexivity|].
      split; [now repeat split|].
      split; [reflexivity|]. split; [|discriminate].
      subst w1. unfold writes_to. cbn [writes drive hw]. rewrite filter_app.
      cbn. now rewrite app_nil_r.
    + cbn. do 2 eexists. split; [reflexivity|].
      split; [now repeat split|]. split; [reflexivity|].
      split.
      * unfold writes_to. cbn [writes drive hw]. rewrite !filter_app. cbn.
        now rewrite !app_nil_r.
      * intros _ _. cbn. now rewrite <- app_assoc.
Qed.

Lemma latest_failed_read_leaves_relay_witness :
  let w := mkWorld tt (bench [(PIR_PIN, 1); (STORM_PIN, 1); (ANTENNA_PIN, 1);
                              (STORM_LED_PIN, 1)]
                             [CLOUDS_PIN] (Measured None None) 0) in
  exists s w',
    update_logic w = (Ok s, w') /\ storm s = false /\
    level (hw w') ANTENNA_PIN = 1 /\ level (hw w') STORM_LED_PIN = 0.
Proof.
  intros w.
  destruct (latest_failed_read_leaves_relay w "OSError"%string eq_refl)
    as (s & w' & Hu & (_ & Hst & _) & Hl & _ & _).
  exists s, w'. split; [exact Hu|]. split; [exact Hst|]. split; [exact Hl|].
  vm_compute in Hu. injection Hu as _ <-. reflexivity.
Defined.

(** X24: the output test leaves the status LED off.  On a board whose pins
    work, [test_all_outputs] switches each of the four outputs on then
    off, eight writes; the cycle that follows sets the storm LED, the
    clouds LED and the relay from the sensors again, and leaves the status
    LED low, whatever its level was before the test. *)
Theorem latest_test_leaves_status_led_off (w : System) :
  pins_ok (inputs ++ outputs) (hw w) ->
  fault (hw w) STATUS_LED_PIN = None ->
  let p := truthy (level (hw w) PIR_PIN) in
  let st := truthy (level (hw w) STORM_PIN) in
  let c := truthy (level (hw w) CLOUDS_PIN) in
  exists w1 s w2,
    test_all_outputs w = (Ok tt, w1) /\
    writes (hw w1) =
      writes (hw w) ++
      [(STATUS_LED_PIN, 1); (STATUS_LED_PIN, 0);
       (STORM_LED_PIN, 1); (STORM_LED_PIN, 0);
       (CLOUDS_LED_PIN, 1); (CLOUDS_LED_PIN, 0);
       (ANTENNA_PIN, 1); (ANTENNA_PIN, 0)] /\
    update_logic w1 = (Ok s, w2) /\
    level (hw w2) STATUS_LED_PIN = 0 /\
    level (hw w2) STORM_LED_PIN = (if st then 1 else 0) /\
    level (hw w2) CLOUDS_LED_PIN = (if c then 1 else 0) /\
    level (hw w2) ANTENNA_PIN = (if p && negb st then 1 else 0).
Proof.
  intros Hp H0 p st c.
  destruct (pins_ok_all _ Hp) as [(H1 & H2 & H3) (H4 & H5 & H6)].
  destruct w as [me h]. cbn [hw self] in *.
  unfold test_all_outputs. cbn [for_each]. unfold bind, pin_set, ret.
  repeat first
    [ progress cbn [hw self fault drive fst snd]
    | progress cbv beta iota
    | match goal with
      | H : fault ?h ?p = None |- context [fault ?h ?p] => rewrite H
      end ].
  match goal with |- context [(Ok tt, ?x)] => set (w1 := x) end.
  assert (Hp1 : pins_ok (inputs ++ outputs) (hw w1)) by exact Hp.
  destruct (latest_cycle w1 Hp1) as (s & Hu & _).
  exists w1. do 2 eexists. split; [reflexivity|].
  split; [subst w1; cbn [hw writes drive]; now rewrite <- !app_assoc|].
  split; [exact Hu|].
  subst w1. cbn [hw level drive].
  change (truthy (if PIR_PIN =? ANTENNA_PIN then 0 else _)) with p.
  cbn. fold p st c.
  destruct p, st, c; cbn; repeat split.
Qed.

Lemma latest_test_leaves_status_led_off_witness :
  let w := mkWorld tt (bench [(PIR_PIN, 1); (STATUS_LED_PIN, 1)] []
                             (Measured None None) 0) in
  exists w1 s w2,
    test_all_outputs w = (Ok tt, w1) /\
    update_logic w1 = (Ok s, w2) /\
    level (hw w2) STATUS_LED_PIN = 0 /\
    level (hw w2) ANTENNA_PIN = 1.
Proof.
  intros w.
  assert (Hok : pins_ok (inputs ++ outputs) (hw w)) by bench_ok.
  destruct (latest_test_leaves_status_led_off w Hok eq_refl)
    as (w1 & s & w2 & Ht & _ & Hu & Hl & _ & _ & Ha).
  exists w1, s, w2. repeat split; assumption.
Defined.

End LatestMore.
